(** * Renderer bootstrap (app/src/ui/index.tsx): crash context, error
    reporting and lifecycle wiring.

    The file embeds the module-level code of [index.tsx]: the three
    module variables ([currentState], [lastUnhandledRejection],
    [lastUnhandledRejectionTime]), [sendErrorWithContext], the listeners
    the module attaches to [process], [window], [appStore] and
    [ipcRenderer], and the start-up calls on the dispatcher.  Calls that
    leave the module (console, the main-process proxy, the dispatcher) are
    recorded as a trace of effects. *)

From stdpp Require Import base option list strings gmap fin_maps pretty.

Set Default Proof Using "Type".

(** ** JavaScript values as the module sees them *)

(** A property whose declared type is [T | null]; at run time the slot can
    also hold [undefined]. *)
Inductive nullable (A : Type) : Type :=
  | Undefined
  | Null
  | Ref (a : A).
Arguments Undefined {A}.
Arguments Null {A}.
Arguments Ref {A} a.

(** What a [throw] carries. *)
Inductive exn : Type :=
  | TypeError (message : string)
  | Thrown (description : string).

(** Outcome of evaluating an expression or a statement list. *)
Inductive completion (A : Type) : Type :=
  | Normal (a : A)
  | Throw (e : exn).
Arguments Normal {A} a.
Arguments Throw {A} e.

(** [x !== null] *)
Definition strict_ne_null {A} (x : nullable A) : bool :=
  match x with Null => false | _ => true end.

(** [if (x)] on a slot holding an object, [null] or [undefined]. *)
Definition truthy {A} (x : nullable A) : bool :=
  match x with Ref _ => true | _ => false end.

(** [`${b}`] for a boolean. *)
Definition boolean_toString (b : bool) : string :=
  if b then "true" else "false".

(** ** What the module imports

    Types and functions declared in other modules of the application.
    Only what [index.tsx] does with them is fixed here: enum members are
    compared with [===] and converted by a template literal. *)
Class Imports : Type := {
  Error : Type;
  Repository : Type;
  Account : Type;
  URLActionType : Type;
  Date : Type;
  Date_toString : Date → string;
  number : Type;
  number_one : number;
  number_strict_eq : number → number → bool;
  number_toString : number → string;
  PopupType : Type;
  PopupType_toString : PopupType → string;
  FoldoutType : Type;
  FoldoutType_toString : FoldoutType → string;
  RepositorySectionTab : Type;
  RepositorySectionTab_toString : RepositorySectionTab → string;
  SelectionType : Type;
  SelectionType_Repository : SelectionType;
  SelectionType_CloningRepository : SelectionType;
  SelectionType_strict_eq : SelectionType → SelectionType → bool;
  SelectionType_toString : SelectionType → string;
  withSourceMappedStack : Error → Error;
}.

(** Build-time constants and host queries: [__DEV__], [__DARWIN__],
    [process.env.TEST_ENV], [getOS()], [getGUID()]. *)
Record Host : Type := {
  __DEV__ : bool;
  __DARWIN__ : bool;
  TEST_ENV : option string;
  getOS : string;
  getGUID : string;
}.

(** An environment variable is truthy when it is set and not empty. *)
Definition env_truthy (v : option string) : bool :=
  match v with
  | Some s => negb (bool_decide (s = ""))
  | None => false
  end.

(** The thirteen handlers imported from [./dispatcher]. *)
Inductive ErrorHandler : Type :=
  | gitAuthenticationErrorHandler
  | externalEditorErrorHandler
  | openShellErrorHandler
  | mergeConflictHandler
  | lfsAttributeMismatchHandler
  | defaultErrorHandler
  | missingRepositoryHandler
  | backgroundTaskHandler
  | pushNeedsPullHandler
  | upstreamAlreadyExistsHandler
  | rebaseConflictsHandler
  | localChangesOverwrittenHandler
  | refusedWorkflowUpdate.

Global Instance ErrorHandler_eq_dec : EqDecision ErrorHandler.
Proof. solve_decision. Defined.

Section Model.
Context `{Imports}.

(** *** The parts of [IAppState] the module reads *)

Record Banner : Type := { Banner_type : string }.
Record Popup : Type := { Popup_type : PopupType }.
Record Foldout : Type := { Foldout_type : FoldoutType }.
Record IRepositoryState : Type := { selectedSection : RepositorySectionTab }.

(** [selectedState]: the [state] property exists on a repository
    selection only. *)
Record Selection : Type := {
  Selection_type : SelectionType;
  Selection_repository : Repository;
  Selection_state : nullable IRepositoryState;
}.

Record IAppState : Type := {
  currentBanner : nullable Banner;
  currentPopup : nullable Popup;
  selectedState : nullable Selection;
  currentFoldout : nullable Foldout;
  showWelcomeFlow : bool;
  windowZoomFactor : number;
  errors : nullable (list Error);
  repositories : nullable (list Repository);
  windowState : string;
  accounts : nullable (list Account);
  automaticallySwitchTheme : bool;
}.

(** *** Values of type [any] (the reason of a promise rejection) *)

Inductive JSValue : Type :=
  | VUndefined
  | VNull
  | VBoolean (b : bool)
  | VNumber (n : number)
  | VString (s : string)
  | VSymbol (description : string)
  | VObject (toString : completion string).

(** [`${v}`]: a symbol cannot be converted to a string, an object
    answers with whatever its own conversion does. *)
Definition template_literal (v : JSValue) : completion string :=
  match v with
  | VUndefined => Normal "undefined"
  | VNull => Normal "null"
  | VBoolean b => Normal (boolean_toString b)
  | VNumber n => Normal (number_toString n)
  | VString s => Normal s
  | VSymbol _ => Throw (TypeError "Cannot convert a Symbol value to a string")
  | VObject c => c
  end.

(** *** Effects that leave the module *)

Inductive DispatcherCall : Type :=
  | registerErrorHandler (handler : ErrorHandler)
  | setAppFocusState (isFocused : bool)
  | setAccessKeyHighlightState (isHighlighted : bool)
  | dispatchURLAction (action : URLActionType)
  | refreshRepository (repository : Repository).

Inductive Effect : Type :=
  | console_error (message : string) (error : option Error)
  | sendErrorReport (error : Error) (extra : gmap string string)
      (nonFatal : option bool)
  | reportUncaughtException (error : Error)
  | dispatcher (call : DispatcherCall).

(** *** Module variables *)

Record Module : Type := {
  currentState : nullable IAppState;
  lastUnhandledRejection : option string;
  lastUnhandledRejectionTime : option Date;
  (** the [process.once('uncaughtException', ...)] listener is still
      attached *)
  uncaughtExceptionListener : bool;
}.

(** *** Statements that fill [extra]

    A statement list runs on the [extra] object and either completes or
    throws; what it has written before a throw stays written. *)
Definition Extract (A : Type) : Type :=
  gmap string string → gmap string string * completion A.

Global Instance Extract_ret : MRet Extract :=
  λ A a extra, (extra, Normal a).

Global Instance Extract_bind : MBind Extract :=
  λ A B k m extra,
    match m extra with
    | (extra', Normal a) => k a extra'
    | (extra', Throw e) => (extra', Throw e)
    end.

(** [o.p]: reading a property of [undefined] or [null] throws. *)
Definition get {A B} (o : nullable A) (p : A → B) : Extract B :=
  λ extra,
    match o with
    | Ref a => (extra, Normal (p a))
    | _ => (extra, Throw (TypeError "Cannot read properties of undefined"))
    end.

(** [extra.k = v] *)
Definition assign (k v : string) : Extract unit :=
  λ extra, (<[k:=v]> extra, Normal ()).

(** [if (c) { body }] *)
Definition when (c : bool) (body : Extract unit) : Extract unit :=
  if c then body else mret ().

(** [try { body } catch (err) { /* ignore */ }] *)
Definition try_ignore (body : Extract unit) : Extract unit :=
  λ extra, (fst (body extra), Normal ()).

(** [{ ...target, ...source }]: every entry of [source] is written over
    what [target] holds. *)
Definition spread (target source : gmap string string)
    : gmap string string :=
  source ∪ target.

(** A statement list: the statements run in order, a throw leaves the
    list. *)
Fixpoint block (stmts : list (Extract unit)) : Extract unit :=
  match stmts with
  | [] => mret ()
  | stmt :: rest => stmt ;; block rest
  end.

(** A statement that never writes key [k]. *)
Definition silent_on (k : string) {A} (stmt : Extract A) : Prop :=
  ∀ extra, fst (stmt extra) !! k = extra !! k.

(** A statement whose writes and outcome do not depend on what [extra]
    already holds. *)
Definition uniform {A} (stmt : Extract A) : Prop :=
  ∀ extra, stmt extra = (fst (stmt ∅) ∪ extra, snd (stmt ∅)).

End Model.


Section Reporting.
Context `{Imports}.
Variable host : Host.

(** The statements of the body of [if (currentState) { ... }], lines
    118-168, in source order. *)
Definition statements (m : Module) (s : IAppState) : list (Extract unit) :=
  [ when (strict_ne_null (currentBanner s))
      (t ← get (currentBanner s) Banner_type;
       assign "currentBanner" t);
    when (strict_ne_null (currentPopup s))
      (t ← get (currentPopup s) Popup_type;
       assign "currentPopup" (PopupType_toString t));
    when (strict_ne_null (selectedState s))
      (t ← get (selectedState s) Selection_type;
       assign "selectedState" (SelectionType_toString t) ;;
       t' ← get (selectedState s) Selection_type;
       when (SelectionType_strict_eq t' SelectionType_Repository)
         (st ← get (selectedState s) Selection_state;
          section ← get st selectedSection;
          assign "selectedRepositorySection"
            (RepositorySectionTab_toString section)));
    when (strict_ne_null (currentFoldout s))
      (t ← get (currentFoldout s) Foldout_type;
       assign "currentFoldout" (FoldoutType_toString t));
    when (showWelcomeFlow s)
      (assign "inWelcomeFlow" "true");
    when (negb (number_strict_eq (windowZoomFactor s) number_one))
      (assign "windowZoomFactor" (number_toString (windowZoomFactor s)));
    (n ← get (errors s) length;
     when (bool_decide (0 < n))
       (n' ← get (errors s) length;
        assign "activeAppErrors" (pretty n')));
    match lastUnhandledRejection m, lastUnhandledRejectionTime m with
    | Some rejection, Some time =>
        assign "lastUnhandledRejection" rejection ;;
        assign "lastUnhandledRejectionTime" (Date_toString time)
    | _, _ => mret ()
    end;
    (n ← get (repositories s) length;
     assign "repositoryCount" (pretty n));
    assign "windowState" (windowState s);
    (n ← get (accounts s) length;
     assign "accounts" (pretty n));
    when (__DARWIN__ host)
      (assign "automaticallySwitchTheme"
         (boolean_toString (automaticallySwitchTheme s))) ].

Definition captureState (m : Module) (s : IAppState) : Extract unit :=
  block (statements m s).

(** The contents of the [try] block, lines 117-169. *)
Definition extraction (m : Module) : Extract unit :=
  match currentState m with
  | Ref s => captureState m s
  | _ => mret ()
  end.

(** [{ osVersion: getOS(), guid: getGUID(), ...context }]: the spread
    comes last, so an entry of [context] replaces a baseline entry with
    the same key. *)
Definition baseline (context : gmap string string) : gmap string string :=
  spread (<["osVersion" := getOS host]> (<["guid" := getGUID host]> ∅))
    context.

(** Lines 116-172: the [try] block with its empty [catch]. *)
Definition crashContext (m : Module) : Extract unit :=
  try_ignore (extraction m).

Definition dev_message : string :=
  "An uncaught exception was thrown. If this were a production build it would be reported to Central. Instead, maybe give it a lil lookyloo.".

(** [sendErrorWithContext(error, context = {}, nonFatal?)] *)
Definition sendErrorWithContext (m : Module) (error : Error)
    (context : option (gmap string string)) (nonFatal : option bool)
    : list Effect :=
  let context := default ∅ context in
  let error := withSourceMappedStack error in
  console_error "Uncaught exception" (Some error) ::
  if __DEV__ host || env_truthy (TEST_ENV host) then
    [console_error dev_message None]
  else
    let extra := fst (crashContext m (baseline context)) in
    [sendErrorReport error extra nonFatal].


(** *** Listeners *)

(** [process.once('uncaughtException', ...)]: the listener is detached
    when it is called. *)
Definition on_uncaughtException (m : Module) (error : Error)
    : Module * list Effect :=
  if uncaughtExceptionListener m then
    ({| currentState := currentState m;
        lastUnhandledRejection := lastUnhandledRejection m;
        lastUnhandledRejectionTime := lastUnhandledRejectionTime m;
        uncaughtExceptionListener := false |},
     sendErrorWithContext m error None None
       ++ [reportUncaughtException error])
  else (m, []).

(** [process.on('send-non-fatal-exception', ...)] *)
Definition on_send_non_fatal_exception (m : Module) (error : Error)
    (context : option (gmap string string)) : list Effect :=
  sendErrorWithContext m error context (Some true).

(** [window.addEventListener('unhandledrejection', ...)]; [now] is what
    [new Date()] reads.  Both assignments sit in one [try]: when the
    template literal throws, neither happens. *)
Definition on_unhandledrejection (m : Module) (reason : JSValue)
    (now : Date) : Module :=
  match reason with
  | VNull | VUndefined => m
  | _ =>
      match template_literal reason with
      | Normal text =>
          {| currentState := currentState m;
             lastUnhandledRejection := Some text;
             lastUnhandledRejectionTime := Some now;
             uncaughtExceptionListener := uncaughtExceptionListener m |}
      | Throw _ => m
      end
  end.

(** [appStore.onDidUpdate(state => { currentState = state })] *)
Definition on_update (m : Module) (state : IAppState) : Module :=
  {| currentState := Ref state;
     lastUnhandledRejection := lastUnhandledRejection m;
     lastUnhandledRejectionTime := lastUnhandledRejectionTime m;
     uncaughtExceptionListener := uncaughtExceptionListener m |}.

(** [ipcRenderer.on('focus', ...)]; [state] is what
    [appStore.getState()] returns. *)
Definition on_focus (state : IAppState) : list DispatcherCall :=
  match selectedState state with
  | Ref selection =>
      if negb (SelectionType_strict_eq (Selection_type selection)
                 SelectionType_CloningRepository)
      then [refreshRepository (Selection_repository selection)]
      else []
  | _ => []
  end ++ [setAppFocusState true].

(** [ipcRenderer.on('blur', ...)] *)
Definition on_blur : list DispatcherCall :=
  [setAccessKeyHighlightState false; setAppFocusState false].

(** [ipcRenderer.on('url-action', ...)] *)
Definition on_url_action (action : URLActionType) : list DispatcherCall :=
  [dispatchURLAction action].

(** *** The module as a machine driven by its listeners *)

Inductive Signal : Type :=
  | uncaughtException (error : Error)
  | send_non_fatal_exception (error : Error)
      (context : option (gmap string string))
  | unhandledrejection (reason : JSValue) (now : Date)
  | didUpdate (state : IAppState)
  | focus (state : IAppState)
  | blur
  | url_action (action : URLActionType).

Definition handle (m : Module) (signal : Signal) : Module * list Effect :=
  match signal with
  | uncaughtException error => on_uncaughtException m error
  | send_non_fatal_exception error context =>
      (m, on_send_non_fatal_exception m error context)
  | unhandledrejection reason now =>
      (on_unhandledrejection m reason now, [])
  | didUpdate state => (on_update m state, [])
  | focus state => (m, dispatcher <$> on_focus state)
  | blur => (m, dispatcher <$> on_blur)
  | url_action action => (m, dispatcher <$> on_url_action action)
  end.

Fixpoint run (m : Module) (signals : list Signal) : Module * list Effect :=
  match signals with
  | [] => (m, [])
  | signal :: rest =>
      let '(m', effects) := handle m signal in
      let '(m'', effects') := run m' rest in
      (m'', effects ++ effects')
  end.

(** Lines 92-94 and 178: the module variables when the module has been
    loaded. *)
Definition loaded : Module :=
  {| currentState := Null;
     lastUnhandledRejection := None;
     lastUnhandledRejectionTime := None;
     uncaughtExceptionListener := true |}.

(** Lines 269-285: the calls on the dispatcher while the module loads;
    [isFocused] is [remote.getCurrentWindow().isFocused()]. *)
Definition startup (isFocused : bool) : list DispatcherCall :=
  [ registerErrorHandler defaultErrorHandler;
    registerErrorHandler upstreamAlreadyExistsHandler;
    registerErrorHandler externalEditorErrorHandler;
    registerErrorHandler openShellErrorHandler;
    registerErrorHandler mergeConflictHandler;
    registerErrorHandler lfsAttributeMismatchHandler;
    registerErrorHandler gitAuthenticationErrorHandler;
    registerErrorHandler pushNeedsPullHandler;
    registerErrorHandler backgroundTaskHandler;
    registerErrorHandler missingRepositoryHandler;
    registerErrorHandler localChangesOverwrittenHandler;
    registerErrorHandler rebaseConflictsHandler;
    registerErrorHandler refusedWorkflowUpdate;
    setAppFocusState isFocused ].

(** *** Observations on a trace *)

(** The handlers passed to [registerErrorHandler], in call order. *)
Definition registrations (calls : list DispatcherCall) : list ErrorHandler :=
  omap (λ call,
          match call with
          | registerErrorHandler handler => Some handler
          | _ => None
          end) calls.

Definition dispatcher_calls (effects : list Effect) : list DispatcherCall :=
  omap (λ effect,
          match effect with dispatcher call => Some call | _ => None end)
       effects.

(** The arguments of every [sendErrorReport] call. *)
Definition reports (effects : list Effect)
    : list (Error * gmap string string * option bool) :=
  omap (λ effect,
          match effect with
          | sendErrorReport error extra nonFatal =>
              Some (error, extra, nonFatal)
          | _ => None
          end) effects.

(** The arguments of every [reportUncaughtException] call. *)
Definition fatal_signals (effects : list Effect) : list Error :=
  omap (λ effect,
          match effect with
          | reportUncaughtException error => Some error
          | _ => None
          end) effects.

Definition console_errors (effects : list Effect)
    : list (string * option Error) :=
  omap (λ effect,
          match effect with
          | console_error message error => Some (message, error)
          | _ => None
          end) effects.

Definition is_uncaughtException (signal : Signal) : bool :=
  match signal with uncaughtException _ => true | _ => false end.

(** Reports made without the non-fatal mark. *)
Definition fatal_reports (effects : list Effect)
    : list (Error * gmap string string * option bool) :=
  filter (λ r, r.2 ≠ Some true) (reports effects).

(** [ev.reason !== null && ev.reason !== undefined] *)
Definition has_reason (reason : JSValue) : bool :=
  match reason with VNull | VUndefined => false | _ => true end.

(** What a signal leaves in the two rejection variables, if anything. *)
Definition recorded (signal : Signal) : option (string * Date) :=
  match signal with
  | unhandledrejection reason now =>
      if has_reason reason then
        match template_literal reason with
        | Normal text => Some (text, now)
        | Throw _ => None
        end
      else None
  | _ => None
  end.

(** What [on_focus] does before [setAppFocusState(true)]: nothing, or
    one [refreshRepository] of the selected repository. *)
Definition refresh_on_focus (state : IAppState)
    (calls : list DispatcherCall) : Prop :=
  match selectedState state with
  | Ref selection =>
      if SelectionType_strict_eq (Selection_type selection)
           SelectionType_CloningRepository
      then calls = []
      else calls = [refreshRepository (Selection_repository selection)]
  | _ => calls = []
  end.

(** The build reports errors: neither [__DEV__] nor [TEST_ENV]. *)
Definition production : bool :=
  negb (__DEV__ host || env_truthy (TEST_ENV host)).

(** *** Snapshots of the declared shape

    What the code relies on without testing it: a property compared with
    [null] is never [undefined], the three arrays exist, and a repository
    selection carries its [state]. *)
Definition declared {A} (x : nullable A) : bool :=
  match x with Undefined => false | _ => true end.

Definition conforms (s : IAppState) : bool :=
  declared (currentBanner s)
  && declared (currentPopup s)
  && match selectedState s with
     | Undefined => false
     | Null => true
     | Ref selection =>
         if SelectionType_strict_eq (Selection_type selection)
              SelectionType_Repository
         then truthy (Selection_state selection)
         else true
     end
  && declared (currentFoldout s)
  && truthy (errors s)
  && truthy (repositories s)
  && truthy (accounts s).

(** *** The extraction as the design notes word it

    "A sequence of independent field extractors, each wrapped in its own
    failure boundary": every statement of the body gets a [try] of its
    own.  Used only to compare with [captureState]. *)
Definition spec_captureState_per_field (m : Module) (s : IAppState)
    : Extract unit :=
  block (try_ignore <$> statements m s).

(** *** More observations on a trace *)

(** The snapshot a signal hands to the [onDidUpdate] listener. *)
Definition published (signal : Signal) : option IAppState :=
  match signal with didUpdate state => Some state | _ => None end.

(** The last snapshot published by a sequence of signals, [null] when
    there is none. *)
Definition latest_snapshot (signals : list Signal) : nullable IAppState :=
  match last (omap published signals) with
  | Some state => Ref state
  | None => Null
  end.

Definition is_non_fatal (signal : Signal) : bool :=
  match signal with send_non_fatal_exception _ _ => true | _ => false end.

(** Reports made with the non-fatal mark. *)
Definition non_fatal_reports (effects : list Effect)
    : list (Error * gmap string string * option bool) :=
  filter (λ r, r.2 = Some true) (reports effects).

(** Every key lines 110-168 can write into [extra]. *)
Definition context_keys : list string :=
  [ "osVersion"; "guid"; "currentBanner"; "currentPopup"; "selectedState";
    "selectedRepositorySection"; "currentFoldout"; "inWelcomeFlow";
    "windowZoomFactor"; "activeAppErrors"; "lastUnhandledRejection";
    "lastUnhandledRejectionTime"; "repositoryCount"; "windowState";
    "accounts"; "automaticallySwitchTheme" ].

(** The argument of a [setAppFocusState] call. *)
Definition focus_state (call : DispatcherCall) : option bool :=
  match call with setAppFocusState isFocused => Some isFocused | _ => None end.

(** Whether the window has the focus after a signal, when the signal
    says so. *)
Definition window_focus (signal : Signal) : option bool :=
  match signal with
  | focus _ => Some true
  | blur => Some false
  | _ => None
  end.

(** The argument of a [setAccessKeyHighlightState] call. *)
Definition highlight_state (call : DispatcherCall) : option bool :=
  match call with
  | setAccessKeyHighlightState isHighlighted => Some isHighlighted
  | _ => None
  end.

(** The argument of a [dispatchURLAction] call. *)
Definition dispatched_action (call : DispatcherCall) : option URLActionType :=
  match call with dispatchURLAction action => Some action | _ => None end.

(** What a [blur] signal does to the access-key highlight. *)
Definition window_blur (signal : Signal) : option bool :=
  match signal with blur => Some false | _ => None end.

(** The action a [url-action] signal carries. *)
Definition requested_action (signal : Signal) : option URLActionType :=
  match signal with url_action action => Some action | _ => None end.

End Reporting.

(** ** A concrete instance to run the model on

    Errors, repositories, accounts and URL actions are named by strings,
    numbers are integers, enum members are their ordinals, a date is a
    count of milliseconds. *)
Module Sample.

Definition imports : Imports :=
  {| Error := string;
     Repository := string;
     Account := string;
     URLActionType := string;
     Date := N;
     Date_toString := pretty;
     number := Z;
     number_one := 1%Z;
     number_strict_eq := Z.eqb;
     number_toString := pretty;
     PopupType := N;
     PopupType_toString := pretty;
     FoldoutType := N;
     FoldoutType_toString := pretty;
     RepositorySectionTab := N;
     RepositorySectionTab_toString := pretty;
     SelectionType := N;
     SelectionType_Repository := 0%N;
     SelectionType_CloningRepository := 1%N;
     SelectionType_strict_eq := N.eqb;
     SelectionType_toString := pretty;
     withSourceMappedStack := λ error, error |}.

#[local] Existing Instance imports.

Definition release : Host :=
  {| __DEV__ := false; __DARWIN__ := false; TEST_ENV := None;
     getOS := "Windows 10.0.19045"; getGUID := "guid-1" |}.

Definition development : Host :=
  {| __DEV__ := true; __DARWIN__ := false; TEST_ENV := None;
     getOS := "Windows 10.0.19045"; getGUID := "guid-1" |}.

(** The snapshot of a freshly started application: nothing selected,
    nothing open, no repositories, no accounts, no errors. *)
Definition empty_state : @IAppState imports :=
  {| currentBanner := Null;
     currentPopup := Null;
     selectedState := Null;
     currentFoldout := Null;
     showWelcomeFlow := false;
     windowZoomFactor := 1%Z;
     errors := Ref [];
     repositories := Ref [];
     windowState := "normal";
     accounts := Ref [];
     automaticallySwitchTheme := false |}.

(** One repository, selected, with one error showing. *)
Definition busy_state : @IAppState imports :=
  {| currentBanner := Null;
     currentPopup := Ref {| Popup_type := 3%N |};
     selectedState :=
       Ref {| Selection_type := 0%N;
              Selection_repository := "desktop";
              Selection_state := Ref {| selectedSection := 1%N |} |};
     currentFoldout := Null;
     showWelcomeFlow := true;
     windowZoomFactor := 2%Z;
     errors := Ref ["push failed"];
     repositories := Ref ["desktop"; "dugite"];
     windowState := "maximized";
     accounts := Ref ["octocat"];
     automaticallySwitchTheme := false |}.

(** [busy_state] with [currentPopup] left [undefined]. *)
Definition broken_state : @IAppState imports :=
  {| currentBanner := Null;
     currentPopup := Undefined;
     selectedState := selectedState busy_state;
     currentFoldout := Null;
     showWelcomeFlow := true;
     windowZoomFactor := 2%Z;
     errors := Ref ["push failed"];
     repositories := Ref ["desktop"; "dugite"];
     windowState := "maximized";
     accounts := Ref ["octocat"];
     automaticallySwitchTheme := false |}.

(** [busy_state] with [accounts] left [undefined]: the statement of
    line 162 throws, after the rejection block. *)
Definition truncated_state : @IAppState imports :=
  {| currentBanner := Null;
     currentPopup := currentPopup busy_state;
     selectedState := selectedState busy_state;
     currentFoldout := Null;
     showWelcomeFlow := true;
     windowZoomFactor := 2%Z;
     errors := Ref ["push failed"];
     repositories := Ref ["desktop"; "dugite"];
     windowState := "maximized";
     accounts := Undefined;
     automaticallySwitchTheme := false |}.

Definition showing (s : @IAppState imports) : @Module imports :=
  {| currentState := Ref s;
     lastUnhandledRejection := None;
     lastUnhandledRejectionTime := None;
     uncaughtExceptionListener := true |}.

(** The snapshot [s] is current and a rejection has been recorded. *)
Definition rejected (s : @IAppState imports) : @Module imports :=
  {| currentState := Ref s;
     lastUnhandledRejection := Some "Error: offline";
     lastUnhandledRejectionTime := Some 1700000000000%N;
     uncaughtExceptionListener := true |}.

(** A rejection whose reason is an [Error] object, the time it is
    handled, and an error that is thrown and not caught. *)
Definition offline : JSValue := VObject (Normal "Error: offline").
Definition noon : Date := 1700000000000%N.
Definition boom : Error := "boom".


(** A session: the first snapshot, a rejection, a non-fatal report, a
    second snapshot, and the window losing the focus. *)
Definition session : list (@Signal imports) :=
  [ didUpdate empty_state;
    unhandledrejection offline noon;
    send_non_fatal_exception boom None;
    didUpdate busy_state;
    blur ].

End Sample.

(** ** Properties *)

Section Properties.
Context `{Imports}.
Variable host : Host.

(** *** Reports *)

Lemma production_spec :
  production host = true ↔
  __DEV__ host = false ∧ env_truthy (TEST_ENV host) = false.
Proof.
  unfold production.
  destruct (__DEV__ host), (env_truthy _); simpl; intuition congruence.
Qed.

Lemma sendErrorWithContext_production m error context nonFatal :
  production host = true →
  sendErrorWithContext host m error context nonFatal =
    [ console_error "Uncaught exception"
        (Some (withSourceMappedStack error));
      sendErrorReport (withSourceMappedStack error)
        (fst (crashContext host m (baseline host (default ∅ context))))
        nonFatal ].
Proof.
  intros Hprod. unfold sendErrorWithContext, production in *.
  by destruct (__DEV__ host || env_truthy (TEST_ENV host)).
Qed.

Lemma sendErrorWithContext_development m error context nonFatal :
  production host = false →
  sendErrorWithContext host m error context nonFatal =
    [ console_error "Uncaught exception"
        (Some (withSourceMappedStack error));
      console_error dev_message None ].
Proof.
  intros Hdev. unfold sendErrorWithContext, production in *.
  by destruct (__DEV__ host || env_truthy (TEST_ENV host)).
Qed.

Lemma baseline_lookup context k :
  baseline host context !! k =
    match context !! k with
    | Some v => Some v
    | None =>
        if decide (k = "osVersion") then Some (getOS host)
        else if decide (k = "guid") then Some (getGUID host)
        else None
    end.
Proof.
  unfold baseline, spread. rewrite lookup_union.
  destruct (context !! k) as [v|] eqn:Hk.
  - by rewrite union_Some_l.
  - rewrite (left_id None _).
    repeat case_decide; subst; simplify_map_eq; done.
Qed.

Lemma baseline_dom context :
  dom (baseline host context) = {["osVersion"; "guid"]} ∪ dom context.
Proof.
  unfold baseline, spread.
  rewrite dom_union_L, !dom_insert_L, dom_empty_L.
  rewrite (right_id_L ∅ (∪)), (comm_L (∪) (dom context)).
  by rewrite (comm_L (∪) {["osVersion"]} {["guid"]}).
Qed.

(** C1. While no snapshot has been published ([currentState] is [null],
    or [undefined]) and the build is a production build, the statements
    in the [try] block raise nothing, and [sendErrorWithContext] calls
    [sendErrorReport] exactly once; the context it passes is the caller's
    context on top of the two baseline entries [osVersion] and [guid] and
    has no other key. *)
Theorem null_snapshot_sends_baseline m error context nonFatal :
  production host = true →
  truthy (currentState m) = false →
  ∃ extra,
    (∀ before, snd (extraction host m before) = Normal ())
    ∧ reports (sendErrorWithContext host m error context nonFatal)
        = [(withSourceMappedStack error, extra, nonFatal)]
    ∧ extra = default ∅ context
                ∪ {["osVersion" := getOS host; "guid" := getGUID host]}
    ∧ dom extra = {["osVersion"; "guid"]} ∪ dom (default ∅ context).
Proof.
  intros Hprod Hnull. eexists. split_and!.
  - intros before. unfold extraction.
    by destruct (currentState m).
  - rewrite sendErrorWithContext_production by done. simpl. reflexivity.
  - unfold crashContext, try_ignore, extraction.
    destruct (currentState m); done.
  - unfold crashContext, try_ignore, extraction.
    destruct (currentState m); try done; simpl; apply baseline_dom.
Qed.

(** C4. In a development or test build [sendErrorWithContext] writes the
    error and the notice to the console and never calls
    [sendErrorReport]; in a production build it calls [sendErrorReport]
    exactly once, with the error it was given. *)
Theorem report_only_in_production m error context nonFatal :
  let effects := sendErrorWithContext host m error context nonFatal in
  if production host then
    length (reports effects) = 1
    ∧ fst <$> reports effects = [(withSourceMappedStack error,
          fst (crashContext host m (baseline host (default ∅ context))))]
    ∧ snd <$> reports effects = [nonFatal]
  else
    reports effects = []
    ∧ console_errors effects =
        [ ("Uncaught exception", Some (withSourceMappedStack error));
          (dev_message, None) ].
Proof.
  cbv zeta. destruct (production host) eqn:Hmode.
  - by rewrite sendErrorWithContext_production.
  - by rewrite sendErrorWithContext_development.
Qed.

(** *** The handler chain *)

Lemma sendErrorWithContext_no_dispatch m error context nonFatal :
  dispatcher_calls (sendErrorWithContext host m error context nonFatal) = [].
Proof.
  unfold sendErrorWithContext.
  by destruct (__DEV__ host || env_truthy (TEST_ENV host)).
Qed.

Lemma dispatcher_calls_app e1 e2 :
  dispatcher_calls (e1 ++ e2) = dispatcher_calls e1 ++ dispatcher_calls e2.
Proof. apply omap_app. Qed.

Lemma dispatcher_calls_fmap calls :
  dispatcher_calls (dispatcher <$> calls) = calls.
Proof. induction calls as [|c cs IH]; simpl; [done | by f_equal]. Qed.

Lemma registrations_app c1 c2 :
  registrations (c1 ++ c2) = registrations c1 ++ registrations c2.
Proof. apply omap_app. Qed.

Lemma on_focus_no_registration state : registrations (on_focus state) = [].
Proof.
  unfold on_focus. rewrite registrations_app.
  destruct (selectedState state) as [| |selection]; try done.
  by destruct (negb _).
Qed.

Lemma handle_no_registration m signal :
  registrations (dispatcher_calls (snd (handle host m signal))) = [].
Proof.
  destruct signal; cbn [handle snd]; rewrite ?dispatcher_calls_fmap;
    auto using on_focus_no_registration.
  - unfold on_uncaughtException.
    destruct (uncaughtExceptionListener m); cbn [snd]; [|done].
    by rewrite dispatcher_calls_app, sendErrorWithContext_no_dispatch.
  - unfold on_send_non_fatal_exception.
    by rewrite sendErrorWithContext_no_dispatch.
Qed.

Lemma run_cons m signal rest :
  run host m (signal :: rest) =
    (fst (run host (fst (handle host m signal)) rest),
     snd (handle host m signal)
       ++ snd (run host (fst (handle host m signal)) rest)).
Proof.
  cbn [run]. destruct (handle host m signal) as [m' effects].
  cbn [fst snd]. by destruct (run host m' rest).
Qed.

Lemma run_app m pre post :
  run host m (pre ++ post) =
    (fst (run host (fst (run host m pre)) post),
     snd (run host m pre) ++ snd (run host (fst (run host m pre)) post)).
Proof.
  revert m. induction pre as [|signal pre IH]; intros m.
  - simpl. by destruct (run host m post).
  - rewrite <-app_comm_cons, !run_cons, IH. simpl. by rewrite (assoc_L (++)).
Qed.

Lemma run_no_registration m signals :
  registrations (dispatcher_calls (snd (run host m signals))) = [].
Proof.
  revert m. induction signals as [|signal rest IH]; intros m; [done|].
  rewrite run_cons. cbn [snd].
  by rewrite dispatcher_calls_app, registrations_app,
    handle_no_registration, IH.
Qed.

(** C3. While the module loads, [registerErrorHandler] is called thirteen
    times: first with [defaultErrorHandler], then with the twelve
    specialized handlers in the order upstream-already-exists, external
    editor, open shell, merge conflict, LFS attribute mismatch, git
    authentication, push-needs-pull, background task, missing repository,
    local changes overwritten, rebase conflicts, refused workflow update.
    Every imported handler is registered, none twice, and no listener of
    the module registers a handler afterwards. *)
Theorem handlers_registered_once_in_order isFocused m signals :
  registrations (startup isFocused) =
    defaultErrorHandler ::
    [ upstreamAlreadyExistsHandler; externalEditorErrorHandler;
      openShellErrorHandler; mergeConflictHandler;
      lfsAttributeMismatchHandler; gitAuthenticationErrorHandler;
      pushNeedsPullHandler; backgroundTaskHandler;
      missingRepositoryHandler; localChangesOverwrittenHandler;
      rebaseConflictsHandler; refusedWorkflowUpdate ]
  ∧ length (registrations (startup isFocused)) = 13
  ∧ NoDup (registrations (startup isFocused))
  ∧ (∀ handler, handler ∈ registrations (startup isFocused))
  ∧ registrations (dispatcher_calls (snd (run host m signals))) = [].
Proof.
  split_and!.
  - reflexivity.
  - reflexivity.
  - apply (bool_decide_unpack (NoDup _)). by vm_compute.
  - intros handler. simpl. destruct handler; set_solver.
  - apply run_no_registration.
Qed.

(** *** Lifecycle signals *)

(** C7, as the code has it. The module calls the dispatcher for three
    signals only, and leaves its own variables alone when it does:
    [blur] gives [setAccessKeyHighlightState(false)] then
    [setAppFocusState(false)]; [url-action] gives [dispatchURLAction] on
    the action of the payload; [focus] ends with [setAppFocusState(true)],
    preceded by [refreshRepository] on the selected repository when
    something is selected and the selection is not a cloning repository.
    Every other signal reaches no dispatcher call. *)
Theorem lifecycle_signals_dispatch m signal :
  let calls := dispatcher_calls (snd (handle host m signal)) in
  match signal with
  | focus state =>
      ∃ refresh,
        calls = refresh ++ [setAppFocusState true]
        ∧ refresh_on_focus state refresh
        ∧ fst (handle host m signal) = m
  | blur =>
      calls = [setAccessKeyHighlightState false; setAppFocusState false]
      ∧ fst (handle host m signal) = m
  | url_action action =>
      calls = [dispatchURLAction action]
      ∧ fst (handle host m signal) = m
  | _ => calls = []
  end.
Proof.
  cbv zeta. destruct signal; cbn [handle fst snd];
    rewrite ?dispatcher_calls_fmap.
  - unfold on_uncaughtException.
    destruct (uncaughtExceptionListener m); cbn [snd]; [|done].
    by rewrite dispatcher_calls_app, sendErrorWithContext_no_dispatch.
  - apply sendErrorWithContext_no_dispatch.
  - done.
  - done.
  - unfold on_focus, refresh_on_focus. eexists. split; [reflexivity|].
    split; [|done].
    destruct (selectedState state) as [| |selection]; try done.
    by destruct (SelectionType_strict_eq _ _).
  - done.
  - done.
Qed.

(** *** Unhandled rejections *)

(** C8, as the code has it. The listener never reports and never raises
    the fatal signal.  When the reason is neither [null] nor [undefined]
    and its conversion to a string succeeds, the text and the current
    time are recorded and nothing else changes; when the reason is
    [null] or [undefined], or the conversion throws, the module
    variables stay as they were. *)
Theorem rejection_recorded_when_printable m reason now :
  snd (handle host m (unhandledrejection reason now)) = []
  ∧ fst (handle host m (unhandledrejection reason now)) =
      match has_reason reason, template_literal reason with
      | true, Normal text =>
          {| currentState := currentState m;
             lastUnhandledRejection := Some text;
             lastUnhandledRejectionTime := Some now;
             uncaughtExceptionListener := uncaughtExceptionListener m |}
      | _, _ => m
      end.
Proof.
  split; [done|]. cbn [handle fst]. unfold on_unhandledrejection.
  destruct reason; try done.
Qed.

Lemma handle_rejection_variables m signal :
  let m' := fst (handle host m signal) in
  (lastUnhandledRejection m', lastUnhandledRejectionTime m') =
    match recorded signal with
    | Some (text, now) => (Some text, Some now)
    | None => (lastUnhandledRejection m, lastUnhandledRejectionTime m)
    end.
Proof.
  destruct signal; cbn [handle fst recorded]; try done.
  - unfold on_uncaughtException. by destruct (uncaughtExceptionListener m).
  - unfold on_unhandledrejection. destruct reason; try done.
    cbn. by destruct toString.
Qed.

(** X1. After any sequence of signals, [lastUnhandledRejection] and
    [lastUnhandledRejectionTime] hold the text and the time of the most
    recent rejection whose reason was neither [null] nor [undefined] and
    could be converted to a string; a later rejection that cannot be
    recorded leaves them alone, and before the first one both are
    [null]. *)
Lemma run_records_most_recent signals :
  let m := fst (run host loaded signals) in
  (lastUnhandledRejection m, lastUnhandledRejectionTime m) =
    match last (omap recorded signals) with
    | Some (text, now) => (Some text, Some now)
    | None => (None, None)
    end.
Proof.
  induction signals as [|signal signals IH] using rev_ind; [done|].
  cbv zeta in *. rewrite run_app. cbn [fst].
  rewrite run_cons. cbn [fst run].
  rewrite handle_rejection_variables, omap_app.
  change (omap recorded [signal]) with
    (match recorded signal with Some r => [r] | None => [] end).
  destruct (recorded signal) as [[text now]|].
  - by rewrite last_snoc.
  - by rewrite (right_id_L [] (++)).
Qed.

(** *** The fatal signal *)

Lemma fatal_signals_app e1 e2 :
  fatal_signals (e1 ++ e2) = fatal_signals e1 ++ fatal_signals e2.
Proof. apply omap_app. Qed.

Lemma reports_app e1 e2 : reports (e1 ++ e2) = reports e1 ++ reports e2.
Proof. apply omap_app. Qed.

Lemma fatal_reports_app e1 e2 :
  fatal_reports (e1 ++ e2) = fatal_reports e1 ++ fatal_reports e2.
Proof. unfold fatal_reports. by rewrite reports_app, filter_app. Qed.

Lemma sendErrorWithContext_fatal_signals m error context nonFatal :
  fatal_signals (sendErrorWithContext host m error context nonFatal) = [].
Proof.
  unfold sendErrorWithContext.
  by destruct (__DEV__ host || env_truthy (TEST_ENV host)).
Qed.

Lemma sendErrorWithContext_reports_length m error context nonFatal :
  length (reports (sendErrorWithContext host m error context nonFatal)) ≤ 1.
Proof.
  unfold sendErrorWithContext.
  destruct (__DEV__ host || env_truthy (TEST_ENV host)); simpl; lia.
Qed.

Lemma non_fatal_report_not_fatal m error context :
  fatal_reports (on_send_non_fatal_exception host m error context) = [].
Proof.
  unfold fatal_reports, on_send_non_fatal_exception, sendErrorWithContext.
  destruct (__DEV__ host || env_truthy (TEST_ENV host)); [done|].
  cbn. rewrite decide_False; [done|]. by intros [].
Qed.

Lemma on_unhandledrejection_listener m reason now :
  uncaughtExceptionListener (on_unhandledrejection m reason now)
    = uncaughtExceptionListener m.
Proof.
  unfold on_unhandledrejection. destruct reason; try done.
  cbn. by destruct toString.
Qed.

(** Once the listener is detached it stays detached, and an uncaught
    exception reaches nothing. *)
Lemma handle_detached m signal :
  uncaughtExceptionListener m = false →
  uncaughtExceptionListener (fst (handle host m signal)) = false
  ∧ fatal_signals (snd (handle host m signal)) = []
  ∧ fatal_reports (snd (handle host m signal)) = [].
Proof.
  intros Hoff. destruct signal; cbn [handle fst snd].
  - unfold on_uncaughtException. by rewrite Hoff.
  - split_and!; [done| |].
    + apply sendErrorWithContext_fatal_signals.
    + apply non_fatal_report_not_fatal.
  - by rewrite on_unhandledrejection_listener.
  - done.
  - split_and!; try done; by induction (on_focus state).
  - done.
  - done.
Qed.

Lemma run_detached m signals :
  uncaughtExceptionListener m = false →
  uncaughtExceptionListener (fst (run host m signals)) = false
  ∧ fatal_signals (snd (run host m signals)) = []
  ∧ fatal_reports (snd (run host m signals)) = [].
Proof.
  revert m. induction signals as [|signal rest IH]; intros m Hoff; [done|].
  rewrite run_cons. cbn [fst snd].
  destruct (handle_detached m signal Hoff) as (Hoff' & Hs & Hr).
  destruct (IH _ Hoff') as (? & Hs' & Hr').
  by rewrite fatal_signals_app, fatal_reports_app, Hs, Hs', Hr, Hr'.
Qed.

(** A signal other than [uncaughtException] leaves the listener as it
    is and raises no fatal signal and no fatal report. *)
Lemma handle_other m signal :
  is_uncaughtException signal = false →
  uncaughtExceptionListener (fst (handle host m signal))
    = uncaughtExceptionListener m
  ∧ fatal_signals (snd (handle host m signal)) = []
  ∧ fatal_reports (snd (handle host m signal)) = [].
Proof.
  intros Hother. destruct signal; try done; cbn [handle fst snd].
  - split_and!; [done| |].
    + apply sendErrorWithContext_fatal_signals.
    + apply non_fatal_report_not_fatal.
  - by rewrite on_unhandledrejection_listener.
  - split_and!; try done; by induction (on_focus state).
Qed.

Lemma run_attached_until m pre :
  forallb (λ signal, negb (is_uncaughtException signal)) pre = true →
  uncaughtExceptionListener (fst (run host m pre))
    = uncaughtExceptionListener m
  ∧ fatal_signals (snd (run host m pre)) = []
  ∧ fatal_reports (snd (run host m pre)) = [].
Proof.
  revert m. induction pre as [|signal pre IH]; intros m Hpre; [done|].
  cbn [forallb] in Hpre. apply andb_true_iff in Hpre as [Hsig Hpre].
  apply negb_true_iff in Hsig.
  rewrite run_cons. cbn [fst snd].
  destruct (handle_other m signal Hsig) as (Hsame & Hs & Hr).
  destruct (IH (fst (handle host m signal)) Hpre) as (Hsame' & Hs' & Hr').
  rewrite fatal_signals_app, fatal_reports_app, Hs, Hs', Hr, Hr'.
  by rewrite Hsame', Hsame.
Qed.

Lemma run_fatal_at_most_once m signals :
  length (fatal_signals (snd (run host m signals))) ≤ 1
  ∧ length (fatal_reports (snd (run host m signals))) ≤ 1.
Proof.
  revert m. induction signals as [|signal rest IH]; intros m.
  { simpl. unfold fatal_reports. simpl. lia. }
  rewrite run_cons. cbn [snd].
  rewrite fatal_signals_app, fatal_reports_app, !length_app.
  destruct (is_uncaughtException signal) eqn:Hsig.
  - destruct signal; try done. cbn [handle]. unfold on_uncaughtException.
    destruct (uncaughtExceptionListener m) eqn:Hon; cbn [fst snd].
    + edestruct (run_detached
        {| currentState := currentState m;
           lastUnhandledRejection := lastUnhandledRejection m;
           lastUnhandledRejectionTime := lastUnhandledRejectionTime m;
           uncaughtExceptionListener := false |} rest) as (_ & -> & ->);
        [done|].
      rewrite fatal_signals_app, sendErrorWithContext_fatal_signals.
      rewrite fatal_reports_app.
      change (fatal_reports [reportUncaughtException error]) with
        (@nil (Error * gmap string string * option bool)).
      change (fatal_signals [reportUncaughtException error]) with [error].
      pose proof (sendErrorWithContext_reports_length m error None None).
      pose proof (length_filter (λ r, r.2 ≠ Some true)
        (reports (sendErrorWithContext host m error None None))).
      unfold fatal_reports. rewrite (right_id_L [] (++)). cbn [length app]. lia.
    + apply IH.
  - destruct (handle_other m signal Hsig) as (_ & -> & ->). apply IH.
Qed.

(** C9. Over any sequence of signals after the module has loaded,
    [reportUncaughtException] is called at most once and at most one
    report goes out without the non-fatal mark.  The first uncaught
    exception of the sequence runs [sendErrorWithContext] and then
    [reportUncaughtException]; every later one changes nothing and
    reaches neither. *)
Theorem fatal_signal_at_most_once pre error post :
  let signals := pre ++ uncaughtException error :: post in
  let m := fst (run host loaded pre) in
  length (fatal_signals (snd (run host loaded signals))) ≤ 1
  ∧ length (fatal_reports (snd (run host loaded signals))) ≤ 1
  ∧ if forallb (λ signal, negb (is_uncaughtException signal)) pre then
      snd (handle host m (uncaughtException error)) =
        sendErrorWithContext host m error None None
          ++ [reportUncaughtException error]
      ∧ fatal_signals (snd (run host loaded signals)) = [error]
    else
      handle host m (uncaughtException error) = (m, []).
Proof.
  cbv zeta.
  destruct (run_fatal_at_most_once loaded
              (pre ++ uncaughtException error :: post)) as [Hs Hr].
  split; [done|]. split; [done|].
  destruct (forallb _ pre) eqn:Hpre.
  - destruct (run_attached_until loaded pre Hpre) as (Hon & Hpre_s & _).
    cbn [handle]. unfold on_uncaughtException at 1. rewrite Hon. cbn [snd].
    split; [done|].
    rewrite run_app. cbn [snd]. rewrite fatal_signals_app, Hpre_s.
    rewrite run_cons. cbn [snd handle]. unfold on_uncaughtException.
    rewrite Hon. cbn [fst snd loaded uncaughtExceptionListener].
    rewrite !fatal_signals_app, sendErrorWithContext_fatal_signals.
    edestruct run_detached as (_ & -> & _); [|done]. done.
  - cbn [handle]. unfold on_uncaughtException.
    assert (uncaughtExceptionListener (fst (run host loaded pre)) = false)
      as ->; [|done].
    clear Hs Hr. generalize (@loaded H). intros m.
    revert m. induction pre as [|signal pre IH]; intros m; [done|].
    cbn [forallb] in Hpre. rewrite run_cons. cbn [fst].
    destruct (is_uncaughtException signal) eqn:Hsig.
    + destruct signal; try done. cbn [handle]. unfold on_uncaughtException.
      destruct (uncaughtExceptionListener m) eqn:Hon; cbn [fst].
      * by apply run_detached.
      * by apply run_detached.
    + by apply IH.
Qed.

(** *** Statement lists *)

Lemma block_cons stmt rest extra :
  block (stmt :: rest) extra =
    match stmt extra with
    | (extra', Normal _) => block rest extra'
    | (extra', Throw e) => (extra', Throw e)
    end.
Proof. reflexivity. Qed.

Lemma block_app pre post extra :
  block (pre ++ post) extra =
    match block pre extra with
    | (extra', Normal _) => block post extra'
    | (extra', Throw e) => (extra', Throw e)
    end.
Proof.
  revert extra. induction pre as [|stmt pre IH]; intros extra; [done|].
  rewrite <-app_comm_cons, !block_cons.
  destruct (stmt extra) as [extra' [[]|e]]; [apply IH | done].
Qed.

Section silent.
Context (k : string).

Lemma silent_ret {A} (a : A) : silent_on k (mret a).
Proof. by intros extra. Qed.

Lemma silent_get {A B} (o : nullable A) (p : A → B) :
  silent_on k (get o p).
Proof. intros extra. by destruct o. Qed.

Lemma silent_assign k' v : k' ≠ k → silent_on k (assign k' v).
Proof. intros Hne extra. cbn. by rewrite lookup_insert_ne. Qed.

Lemma silent_bind {A B} (stmt : Extract A) (rest : A → Extract B) :
  silent_on k stmt → (∀ a, silent_on k (rest a)) →
  silent_on k (stmt ≫= rest).
Proof.
  intros Hstmt Hrest extra. unfold mbind, Extract_bind.
  specialize (Hstmt extra).
  destruct (stmt extra) as [extra' [a|e]]; cbn [fst] in *; [|done].
  by rewrite Hrest.
Qed.

Lemma silent_when c body : silent_on k body → silent_on k (when c body).
Proof. intros Hbody. destruct c; [done | apply silent_ret]. Qed.

Lemma silent_try body : silent_on k body → silent_on k (try_ignore body).
Proof. intros Hbody extra. apply Hbody. Qed.

Lemma silent_block stmts :
  Forall (silent_on k) stmts → silent_on k (block stmts).
Proof.
  induction 1 as [|stmt rest Hstmt _ IH]; [apply silent_ret|].
  apply silent_bind; [done | by intros _].
Qed.
End silent.

Lemma uniform_ret {A} (a : A) : uniform (mret a).
Proof. intros extra. cbn. by rewrite (left_id_L ∅ (∪)). Qed.

Lemma uniform_get {A B} (o : nullable A) (p : A → B) : uniform (get o p).
Proof. intros extra. destruct o; cbn; by rewrite (left_id_L ∅ (∪)). Qed.

Lemma uniform_assign k v : uniform (assign k v).
Proof.
  intros extra. cbn. by rewrite <-insert_union_l, (left_id_L ∅ (∪)).
Qed.

Lemma uniform_bind {A B} (stmt : Extract A) (rest : A → Extract B) :
  uniform stmt → (∀ a, uniform (rest a)) → uniform (stmt ≫= rest).
Proof.
  intros Hstmt Hrest extra. unfold mbind, Extract_bind.
  rewrite (Hstmt extra).
  destruct (stmt ∅) as [w [a|e]]; cbn [fst snd]; [|done].
  rewrite (Hrest a (w ∪ extra)), (Hrest a w). cbn [fst snd].
  by rewrite (assoc_L (∪)).
Qed.

Lemma uniform_when c body : uniform body → uniform (when c body).
Proof. intros Hbody. destruct c; [done | apply uniform_ret]. Qed.

Lemma uniform_try body : uniform body → uniform (try_ignore body).
Proof.
  intros Hbody extra. unfold try_ignore. by rewrite (Hbody extra).
Qed.

Lemma uniform_block stmts : Forall uniform stmts → uniform (block stmts).
Proof.
  induction 1 as [|stmt rest Hstmt _ IH]; [apply uniform_ret|].
  apply uniform_bind; [done | by intros _].
Qed.

Ltac statement_by lemma_ret lemma_get lemma_assign lemma_when lemma_bind :=
  repeat first
    [ apply lemma_ret
    | apply lemma_get
    | apply lemma_assign; done
    | apply lemma_when
    | apply lemma_bind; [|intros ?]
    | match goal with
      | |- context [match ?x with Some _ => _ | None => _ end] => destruct x
      end ].

Ltac silent :=
  statement_by silent_ret silent_get silent_assign silent_when silent_bind.

Ltac all_silent :=
  cbn [take drop statements];
  repeat first [apply Forall_nil_2 | apply Forall_cons_2; [silent|]].

Lemma statements_uniform m s : Forall uniform (statements host m s).
Proof.
  unfold statements.
  repeat first
    [ apply Forall_nil_2
    | apply Forall_cons_2;
      [ repeat first
          [ apply uniform_ret | apply uniform_get | apply uniform_assign
          | apply uniform_when | apply uniform_bind; [|intros ?]
          | match goal with
            | |- context [match ?x with Some _ => _ | None => _ end] =>
                destruct x
            end ] |] ].
Qed.

Lemma extraction_uniform m : uniform (extraction host m).
Proof.
  unfold extraction.
  destruct (currentState m); try apply uniform_ret.
  apply uniform_block, statements_uniform.
Qed.

Lemma crashContext_uniform m extra :
  fst (crashContext host m extra) = fst (crashContext host m ∅) ∪ extra.
Proof.
  unfold crashContext.
  by rewrite (uniform_try _ (extraction_uniform m) extra).
Qed.

(** The entry of key [k] after a statement list that completes is the
    one left by the last statement that writes [k]. *)
Lemma block_lookup_split pre stmt post k extra :
  Forall (silent_on k) pre →
  Forall (silent_on k) post →
  snd (block (pre ++ stmt :: post) extra) = Normal () →
  ∃ before,
    before !! k = extra !! k
    ∧ snd (stmt before) = Normal ()
    ∧ fst (block (pre ++ stmt :: post) extra) !! k = fst (stmt before) !! k.
Proof.
  intros Hpre Hpost. rewrite block_app.
  pose proof (silent_block k _ Hpre extra) as Hbefore.
  destruct (block pre extra) as [before [[]|e]]; [|done].
  rewrite block_cons. cbn [fst] in Hbefore.
  pose proof (silent_block k _ Hpost (fst (stmt before))) as Hafter.
  destruct (stmt before) as [after [[]|e]] eqn:Hstmt; [|done].
  cbn [fst] in *. intros Hok. exists before. by rewrite Hstmt, Hafter.
Qed.

Lemma block_lookup_at stmts i stmt k extra :
  stmts !! i = Some stmt →
  Forall (silent_on k) (take i stmts) →
  Forall (silent_on k) (drop (S i) stmts) →
  snd (block stmts extra) = Normal () →
  ∃ before,
    before !! k = extra !! k
    ∧ snd (stmt before) = Normal ()
    ∧ fst (block stmts extra) !! k = fst (stmt before) !! k.
Proof.
  intros Hi Hpre Hpost Hok.
  pose proof (block_lookup_split _ stmt _ k extra Hpre Hpost) as Hsplit.
  rewrite (take_drop_middle stmts i stmt Hi) in Hsplit. by apply Hsplit.
Qed.

(** The same when only the statements before statement [i] are known to
    complete: whether statement [i] or a later one throws or not, the
    entry of [k] is the one statement [i] leaves. *)
Lemma block_lookup_after_prefix stmts i (stmt : Extract unit) k extra :
  stmts !! i = Some stmt →
  Forall (silent_on k) (take i stmts) →
  Forall (silent_on k) (drop (S i) stmts) →
  snd (block (take i stmts) extra) = Normal () →
  ∃ before,
    before !! k = extra !! k
    ∧ fst (block stmts extra) !! k = fst (stmt before) !! k.
Proof.
  intros Hi Hpre Hpost Hok.
  pose proof (block_app (take i stmts) (stmt :: drop (S i) stmts) extra)
    as Hrun.
  rewrite (take_drop_middle stmts i stmt Hi) in Hrun. rewrite Hrun.
  pose proof (silent_block k _ Hpre extra) as Hbefore.
  destruct (block (take i stmts) extra) as [before [[]|e]]; [|done].
  exists before. split; [done|].
  rewrite block_cons.
  pose proof (silent_block k _ Hpost (fst (stmt before))) as Hafter.
  by destruct (stmt before) as [after [[]|e]].
Qed.

(** Statement [i] of a completed body is the only one that writes [k]. *)
Tactic Notation "written" constr(key) "by" constr(index) "in" constr(Hok)
    "as" simple_intropattern(pat) :=
  lazymatch type of Hok with
  | snd (block ?body _) = _ =>
      edestruct block_lookup_at
        with (stmts := body) (i := index) (k := key) as pat;
      [reflexivity | all_silent | all_silent | exact Hok |]
  end.

Lemma assign_run k v extra : assign k v extra = (<[k:=v]> extra, Normal ()).
Proof. reflexivity. Qed.

Lemma assign_then {B} k v (rest : unit → Extract B) extra :
  (assign k v ≫= rest) extra = rest () (<[k:=v]> extra).
Proof. reflexivity. Qed.

Lemma get_then {A B C} (a : A) (p : A → B) (rest : B → Extract C) extra :
  (get (Ref a) p ≫= rest) extra = rest (p a) extra.
Proof. reflexivity. Qed.

Lemma when_run c body extra :
  when c body extra = if c then body extra else (extra, Normal ()).
Proof. by destruct c. Qed.

(** [extra.k = `${o.length}`] completes only if the array is there. *)
Lemma count_completes {A} (o : nullable (list A)) k before :
  snd ((n ← get o length; assign k (pretty n)) before) = Normal () →
  ∃ l, o = Ref l
       ∧ fst ((n ← get o length; assign k (pretty n)) before)
         = <[k := pretty (length l)]> before.
Proof. destruct o as [| |l]; try done. by exists l. Qed.

Lemma sent_context m s error context nonFatal :
  production host = true →
  currentState m = Ref s →
  reports (sendErrorWithContext host m error context nonFatal) =
    [ (withSourceMappedStack error,
       fst (captureState host m s (baseline host (default ∅ context))),
       nonFatal) ].
Proof.
  intros Hprod Hcur. rewrite sendErrorWithContext_production by done.
  unfold crashContext, try_ignore, extraction. by rewrite Hcur.
Qed.

Lemma baseline_lookup_other context k :
  k ≠ "osVersion" → k ≠ "guid" →
  baseline host context !! k = context !! k.
Proof.
  intros. rewrite baseline_lookup.
  destruct (context !! k); [done|]. by rewrite !decide_False.
Qed.

(** *** The crash context *)

(** C2, as the code has it. One [try] surrounds the whole extraction.
    In a production build, when the statements before statement [i] of
    the body complete and statement [i] throws, the exception is
    discarded and [sendErrorReport] is still called exactly once; the
    context it receives is [extra] as it stood when statement [i] threw,
    so no later statement has run. *)
Theorem one_failure_boundary m s error context nonFatal i stmt e :
  let base := baseline host (default ∅ context) in
  let before := block (take i (statements host m s)) base in
  production host = true →
  currentState m = Ref s →
  statements host m s !! i = Some stmt →
  snd before = Normal () →
  snd (stmt (fst before)) = Throw e →
  snd (crashContext host m base) = Normal ()
  ∧ reports (sendErrorWithContext host m error context nonFatal) =
      [(withSourceMappedStack error, fst (stmt (fst before)), nonFatal)].
Proof.
  intros base before Hprod Hcur Hi Hbefore Hthrow. split; [done|].
  rewrite (sent_context m s) by done. fold base.
  unfold captureState.
  rewrite <-(take_drop_middle (statements host m s) i stmt Hi) at 1.
  rewrite block_app. fold before.
  destruct before as [extra [[]|?]]; [|done].
  rewrite block_cons. cbn [fst] in *.
  by destruct (stmt extra) as [extra' [[]|?]].
Qed.

(** C5, as the code has it. In a production build, with a published
    snapshot on which the seven statements that precede the rejection
    block (lines 118-150: banner, popup, selection, foldout, welcome
    flow, zoom factor, active errors) raise nothing, the context holds
    the text and the time of the last recorded rejection exactly when one
    has been recorded; otherwise these two keys are as the caller's
    context has them.  A statement that throws after line 158 does not
    take the two entries away. *)
Theorem rejection_in_context m s error context nonFatal :
  let ctx := default ∅ context in
  production host = true →
  currentState m = Ref s →
  snd (block (take 7 (statements host m s)) (baseline host ctx))
    = Normal () →
  ∃ extra,
    reports (sendErrorWithContext host m error context nonFatal)
      = [(withSourceMappedStack error, extra, nonFatal)]
    ∧ extra !! "lastUnhandledRejection" =
        match lastUnhandledRejection m, lastUnhandledRejectionTime m with
        | Some text, Some _ => Some text
        | _, _ => ctx !! "lastUnhandledRejection"
        end
    ∧ extra !! "lastUnhandledRejectionTime" =
        match lastUnhandledRejection m, lastUnhandledRejectionTime m with
        | Some _, Some time => Some (Date_toString time)
        | _, _ => ctx !! "lastUnhandledRejectionTime"
        end.
Proof.
  intros ctx Hprod Hcur Hpre. eexists. split; [by apply sent_context|].
  fold ctx. unfold captureState. split.
  - edestruct block_lookup_after_prefix
      with (stmts := statements host m s) (i := 7)
           (k := "lastUnhandledRejection")
      as (before & Hbase & ->);
      [reflexivity | all_silent | all_silent | exact Hpre |].
    rewrite baseline_lookup_other in Hbase by done.
    destruct (lastUnhandledRejection m), (lastUnhandledRejectionTime m);
      try done.
    rewrite assign_then, assign_run. cbn [fst].
    by rewrite lookup_insert_ne, lookup_insert_eq.
  - edestruct block_lookup_after_prefix
      with (stmts := statements host m s) (i := 7)
           (k := "lastUnhandledRejectionTime")
      as (before & Hbase & ->);
      [reflexivity | all_silent | all_silent | exact Hpre |].
    rewrite baseline_lookup_other in Hbase by done.
    destruct (lastUnhandledRejection m), (lastUnhandledRejectionTime m);
      try done.
    rewrite assign_then, assign_run. cbn [fst].
    by rewrite lookup_insert_eq.
Qed.

(** C6, as the code has it. In a production build, with a published
    snapshot on which the extraction raises nothing, the context holds
    the number of repositories, the window state and the number of
    accounts.  The number of active errors is there when there is at
    least one error, the zoom factor when it is not 1, the welcome-flow
    mark when the welcome flow shows; otherwise each of these three keys
    is as the caller's context has it. *)
Theorem snapshot_keys_in_context m s error context nonFatal :
  let ctx := default ∅ context in
  production host = true →
  currentState m = Ref s →
  snd (captureState host m s (baseline host ctx)) = Normal () →
  ∃ extra active known signed_in,
    reports (sendErrorWithContext host m error context nonFatal)
      = [(withSourceMappedStack error, extra, nonFatal)]
    ∧ errors s = Ref active
    ∧ repositories s = Ref known
    ∧ accounts s = Ref signed_in
    ∧ extra !! "repositoryCount" = Some (pretty (length known))
    ∧ extra !! "windowState" = Some (windowState s)
    ∧ extra !! "accounts" = Some (pretty (length signed_in))
    ∧ extra !! "activeAppErrors" =
        (if bool_decide (0 < length active)
         then Some (pretty (length active))
         else ctx !! "activeAppErrors")
    ∧ extra !! "windowZoomFactor" =
        (if number_strict_eq (windowZoomFactor s) number_one
         then ctx !! "windowZoomFactor"
         else Some (number_toString (windowZoomFactor s)))
    ∧ extra !! "inWelcomeFlow" =
        (if showWelcomeFlow s then Some "true" else ctx !! "inWelcomeFlow").
Proof.
  intros ctx Hprod Hcur Hok. unfold captureState in Hok.
  written "repositoryCount" by 8 in Hok
    as (e8 & _ & Hok8 & Hrepos).
  apply count_completes in Hok8 as (known & Hknown & Heq8).
  rewrite Heq8, lookup_insert_eq in Hrepos.
  written "accounts" by 10 in Hok
    as (e10 & _ & Hok10 & Haccounts).
  apply count_completes in Hok10 as (signed_in & Hsigned & Heq10).
  rewrite Heq10, lookup_insert_eq in Haccounts.
  written "windowState" by 9 in Hok
    as (e9 & _ & _ & Hwindow).
  rewrite assign_run in Hwindow. cbn [fst] in Hwindow.
  rewrite lookup_insert_eq in Hwindow.
  written "activeAppErrors" by 6 in Hok
    as (e6 & Hbase6 & Hok6 & Herrors).
  rewrite baseline_lookup_other in Hbase6 by done.
  written "windowZoomFactor" by 5 in Hok
    as (e5 & Hbase5 & _ & Hzoom).
  rewrite baseline_lookup_other in Hbase5 by done.
  written "inWelcomeFlow" by 4 in Hok
    as (e4 & Hbase4 & _ & Hwelcome).
  rewrite baseline_lookup_other in Hbase4 by done.
  destruct (errors s) as [| |active] eqn:Hactive; try done.
  exists (fst (captureState host m s (baseline host ctx))),
    active, known, signed_in.
  unfold captureState. split_and!; try done.
  - by apply sent_context.
  - rewrite Herrors, get_then, when_run.
    destruct (bool_decide (0 < length active)); [|done].
    rewrite get_then, assign_run. cbn [fst]. by rewrite lookup_insert_eq.
  - rewrite Hzoom, when_run.
    destruct (number_strict_eq (windowZoomFactor s) number_one);
      cbn [negb]; [done|].
    rewrite assign_run. cbn [fst]. by rewrite lookup_insert_eq.
  - rewrite Hwelcome, when_run.
    destruct (showWelcomeFlow s); [|done].
    rewrite assign_run. cbn [fst]. by rewrite lookup_insert_eq.
Qed.

Lemma extraction_silent_on_baseline m k :
  k = "osVersion" ∨ k = "guid" → silent_on k (crashContext host m).
Proof.
  intros Hk. apply silent_try. unfold extraction.
  destruct (currentState m) as [| |s]; try apply silent_ret.
  apply silent_block. destruct Hk as [->| ->]; all_silent.
Qed.

(** C10. In a production build the context sent is built in three
    layers: the entries the extraction writes, over the caller's
    context, over the baseline.  So a caller's entry named [osVersion] or
    [guid] replaces the baseline value, and an entry written from the
    snapshot replaces a caller's entry with the same key. *)
Theorem collisions_resolve_by_construction_order m error ctx nonFatal :
  let derived := fst (crashContext host m ∅) in
  production host = true →
  ∃ extra,
    reports (sendErrorWithContext host m error (Some ctx) nonFatal)
      = [(withSourceMappedStack error, extra, nonFatal)]
    ∧ extra = derived
                ∪ (ctx ∪ {["osVersion" := getOS host;
                           "guid" := getGUID host]})
    ∧ (∀ k v, derived !! k = Some v → extra !! k = Some v)
    ∧ (∀ k v, derived !! k = None → ctx !! k = Some v →
              extra !! k = Some v)
    ∧ (∀ v, ctx !! "osVersion" = Some v → extra !! "osVersion" = Some v)
    ∧ (∀ v, ctx !! "guid" = Some v → extra !! "guid" = Some v).
Proof.
  intros derived Hprod. eexists. split.
  { rewrite sendErrorWithContext_production by done. reflexivity. }
  assert (∀ k, k = "osVersion" ∨ k = "guid" → derived !! k = None) as Hbase.
  { intros k Hk. unfold derived.
    by rewrite (extraction_silent_on_baseline m k Hk ∅). }
  rewrite crashContext_uniform. fold derived. cbn [default].
  assert (∀ k v, derived !! k = None → ctx !! k = Some v →
            (derived ∪ baseline host ctx) !! k = Some v) as Hctx.
  { intros k v Hnone Hsome. rewrite lookup_union_r by done.
    by rewrite baseline_lookup, Hsome. }
  split_and!; [done| |done| |].
  - intros k v Hk. by apply lookup_union_Some_l.
  - intros v. apply Hctx, Hbase. by left.
  - intros v. apply Hctx, Hbase. by right.
Qed.

(** A snapshot of the declared shape never makes the extraction throw. *)
Lemma conforms_completes m s extra :
  conforms s = true → snd (captureState host m s extra) = Normal ().
Proof.
  unfold conforms. rewrite !andb_true_iff.
  intros ((((((Hbanner & Hpopup) & Hselected) & Hfoldout) & Herrors)
            & Hrepos) & Haccounts).
  assert (∀ stmts, Forall (λ stmt : Extract unit,
                     ∀ e, snd (stmt e) = Normal ()) stmts →
            ∀ e, snd (block stmts e) = Normal ()) as Hblock.
  { induction 1 as [|stmt rest Hstmt _ IH]; intros e; [done|].
    rewrite block_cons. specialize (Hstmt e).
    destruct (stmt e) as [e' [[]|?]]; [apply IH | done]. }
  apply Hblock. unfold statements.
  repeat apply Forall_cons_2; try apply Forall_nil_2; intros e.
  - by destruct (currentBanner s).
  - by destruct (currentPopup s).
  - destruct (selectedState s) as [| |selection]; try done.
    rewrite when_run. cbn [strict_ne_null].
    rewrite get_then, assign_then, get_then, when_run.
    destruct (SelectionType_strict_eq _ _); [|done].
    rewrite get_then. by destruct (Selection_state selection).
  - by destruct (currentFoldout s).
  - by destruct (showWelcomeFlow s).
  - by destruct (negb _).
  - destruct (errors s) as [| |l]; try done.
    rewrite get_then, when_run. by destruct (bool_decide _).
  - by destruct (lastUnhandledRejection m), (lastUnhandledRejectionTime m).
  - by destruct (repositories s).
  - done.
  - by destruct (accounts s).
  - by destruct (__DARWIN__ host).
Qed.

(** *** The module variables over a run *)

Lemma handle_state m signal :
  fst (handle host m signal) =
    {| currentState :=
         match published signal with
         | Some state => Ref state
         | None => currentState m
         end;
       lastUnhandledRejection :=
         match recorded signal with
         | Some (text, _) => Some text
         | None => lastUnhandledRejection m
         end;
       lastUnhandledRejectionTime :=
         match recorded signal with
         | Some (_, now) => Some now
         | None => lastUnhandledRejectionTime m
         end;
       uncaughtExceptionListener :=
         uncaughtExceptionListener m && negb (is_uncaughtException signal) |}.
Proof.
  destruct m as [state text time attached].
  destruct signal; cbn [handle fst published recorded is_uncaughtException
    currentState lastUnhandledRejection lastUnhandledRejectionTime
    uncaughtExceptionListener negb]; rewrite ?andb_true_r, ?andb_false_r;
    try done.
  - unfold on_uncaughtException. by destruct attached.
  - unfold on_unhandledrejection. destruct reason; try done.
    cbn. by destruct toString.
Qed.

Lemma run_snoc m signals signal :
  run host m (signals ++ [signal]) =
    (fst (handle host (fst (run host m signals)) signal),
     snd (run host m signals)
       ++ snd (handle host (fst (run host m signals)) signal)).
Proof.
  rewrite run_app, run_cons. cbn [run fst snd].
  by rewrite (right_id_L [] (++)).
Qed.

(** The four module variables are a function of the signals seen. *)
Lemma run_state signals :
  fst (run host loaded signals) =
    {| currentState := latest_snapshot signals;
       lastUnhandledRejection := fst <$> last (omap recorded signals);
       lastUnhandledRejectionTime := snd <$> last (omap recorded signals);
       uncaughtExceptionListener :=
         negb (existsb is_uncaughtException signals) |}.
Proof.
  induction signals as [|signal signals IH] using rev_ind; [done|].
  rewrite run_snoc. cbn [fst]. rewrite handle_state, IH.
  cbn [currentState lastUnhandledRejection lastUnhandledRejectionTime
       uncaughtExceptionListener].
  unfold latest_snapshot. rewrite !omap_app, existsb_app.
  change (omap published [signal]) with
    (match published signal with Some s => [s] | None => [] end).
  change (omap recorded [signal]) with
    (match recorded signal with Some r => [r] | None => [] end).
  cbn [existsb]. rewrite orb_false_r, negb_orb.
  destruct (published signal) as [state|],
    (recorded signal) as [[text now]|];
    rewrite ?last_snoc, ?(right_id_L [] (++)); done.
Qed.

(** X2. After any sequence of signals, [currentState] is the snapshot
    most recently handed to the [onDidUpdate] listener ([null] before the
    first), whatever else happened in between, and the
    [uncaughtException] listener is attached exactly as long as no
    uncaught exception has been seen. *)
Theorem run_keeps_latest_snapshot signals :
  let m := fst (run host loaded signals) in
  currentState m = latest_snapshot signals
  ∧ uncaughtExceptionListener m
      = negb (existsb is_uncaughtException signals).
Proof. cbv zeta. by rewrite run_state. Qed.

(** X3. In a production build, the first uncaught exception after any
    history of other signals is logged, reported once and then raised as
    the fatal signal, in this order.  The report carries the
    source-mapped error and no non-fatal mark, the fatal signal carries
    the error as it was thrown, and the context is extracted from the
    last snapshot published and the last rejection recorded before the
    exception. *)
Theorem fatal_report_uses_latest_state pre error :
  production host = true →
  forallb (λ signal, negb (is_uncaughtException signal)) pre = true →
  snd (handle host (fst (run host loaded pre)) (uncaughtException error)) =
    [ console_error "Uncaught exception"
        (Some (withSourceMappedStack error));
      sendErrorReport (withSourceMappedStack error)
        (fst (crashContext host
                {| currentState := latest_snapshot pre;
                   lastUnhandledRejection :=
                     fst <$> last (omap recorded pre);
                   lastUnhandledRejectionTime :=
                     snd <$> last (omap recorded pre);
                   uncaughtExceptionListener := true |}
                (baseline host ∅)))
        None;
      reportUncaughtException error ].
Proof.
  intros Hprod Hpre. rewrite run_state.
  assert (existsb is_uncaughtException pre = false) as ->.
  { clear -Hpre. induction pre as [|signal pre IH]; [done|].
    cbn [forallb existsb] in *. apply andb_true_iff in Hpre as [Hsig Hpre].
    apply negb_true_iff in Hsig. by rewrite Hsig, IH. }
  cbn [negb handle]. unfold on_uncaughtException.
  cbn [uncaughtExceptionListener snd].
  by rewrite sendErrorWithContext_production.
Qed.

(** *** Counting reports *)

Lemma non_fatal_reports_app e1 e2 :
  non_fatal_reports (e1 ++ e2) = non_fatal_reports e1 ++ non_fatal_reports e2.
Proof. unfold non_fatal_reports. by rewrite reports_app, filter_app. Qed.

Lemma handle_reports m signal :
  reports (snd (handle host m signal)) =
    if production host then
      match signal with
      | uncaughtException error =>
          if uncaughtExceptionListener m then
            [(withSourceMappedStack error,
              fst (crashContext host m (baseline host ∅)), None)]
          else []
      | send_non_fatal_exception error context =>
          [(withSourceMappedStack error,
            fst (crashContext host m (baseline host (default ∅ context))),
            Some true)]
      | _ => []
      end
    else [].
Proof.
  destruct (production host) eqn:Hmode;
    destruct signal; cbn [handle snd]; try done;
    try (by induction (on_focus state)).
  - unfold on_uncaughtException.
    destruct (uncaughtExceptionListener m); [|done]. cbn [snd].
    by rewrite reports_app, sendErrorWithContext_production.
  - unfold on_send_non_fatal_exception.
    by rewrite sendErrorWithContext_production.
  - unfold on_uncaughtException.
    destruct (uncaughtExceptionListener m); [|done]. cbn [snd].
    by rewrite reports_app, sendErrorWithContext_development.
  - unfold on_send_non_fatal_exception.
    by rewrite sendErrorWithContext_development.
Qed.

Lemma handle_fatal_signals m signal :
  fatal_signals (snd (handle host m signal)) =
    match signal with
    | uncaughtException error =>
        if uncaughtExceptionListener m then [error] else []
    | _ => []
    end.
Proof.
  destruct signal; cbn [handle snd]; try done;
    try (by induction (on_focus state)).
  - unfold on_uncaughtException.
    destruct (uncaughtExceptionListener m); [|done]. cbn [snd].
    by rewrite fatal_signals_app, sendErrorWithContext_fatal_signals.
  - apply sendErrorWithContext_fatal_signals.
Qed.

(** X4. Over any sequence of signals after the module has loaded: a
    development or test build sends no report at all; a production build
    sends one report with the non-fatal mark for every
    [send-non-fatal-exception] signal, however many there are, and one
    report without the mark if an exception was not caught.  In both
    kinds of build the fatal signal is raised once if an exception was
    not caught, and never otherwise. *)
Theorem reports_counted signals :
  let effects := snd (run host loaded signals) in
  let crashed :=
    if existsb is_uncaughtException signals then 1 else 0 in
  length (fatal_signals effects) = crashed
  ∧ if production host then
      length (non_fatal_reports effects)
        = length (List.filter is_non_fatal signals)
      ∧ length (fatal_reports effects) = crashed
      ∧ length (reports effects)
        = length (List.filter is_non_fatal signals) + crashed
    else reports effects = [].
Proof.
  cbv zeta.
  induction signals as [|signal signals IH] using rev_ind.
  { split; [done|]. by destruct (production host). }
  destruct IH as [IHs IHr].
  rewrite run_snoc. cbn [snd].
  rewrite fatal_signals_app, length_app, existsb_app, IHs.
  rewrite handle_fatal_signals, List.filter_app, !length_app.
  rewrite non_fatal_reports_app, fatal_reports_app, reports_app, !length_app.
  unfold non_fatal_reports, fatal_reports in *.
  rewrite handle_reports.
  rewrite (proj2 (run_keeps_latest_snapshot signals)).
  cbn [existsb List.filter].
  destruct (production host).
  - destruct IHr as (IHn & IHf & IHa). rewrite IHn, IHf, IHa.
    destruct (existsb is_uncaughtException signals);
      destruct signal; cbn; repeat case_decide; try done; cbn [length]; lia.
  - rewrite IHr.
    destruct (existsb is_uncaughtException signals);
      destruct signal; cbn; (done || lia).
Qed.

Lemma handle_dispatcher_calls m signal :
  dispatcher_calls (snd (handle host m signal)) =
    match signal with
    | focus state => on_focus state
    | blur => on_blur
    | url_action action => on_url_action action
    | _ => []
    end.
Proof.
  destruct signal; cbn [handle snd]; rewrite ?dispatcher_calls_fmap;
    try done.
  - unfold on_uncaughtException.
    destruct (uncaughtExceptionListener m); [|done]. cbn [snd].
    by rewrite dispatcher_calls_app, sendErrorWithContext_no_dispatch.
  - unfold on_send_non_fatal_exception.
    by rewrite sendErrorWithContext_no_dispatch.
Qed.

Lemma run_projection {A} (of_call : DispatcherCall → option A)
    (of_signal : Signal → option A) m signals :
  (∀ m signal,
     omap of_call (dispatcher_calls (snd (handle host m signal)))
       = omap of_signal [signal]) →
  omap of_call (dispatcher_calls (snd (run host m signals)))
    = omap of_signal signals.
Proof.
  intros Hstep. revert m.
  induction signals as [|signal signals IH]; intros m; [done|].
  rewrite run_cons. cbn [snd].
  rewrite dispatcher_calls_app, omap_app, IH, Hstep.
  change (signal :: signals) with ([signal] ++ signals).
  by rewrite (omap_app of_signal).
Qed.

(** X10. Over any sequence of signals, the module's calls on the
    dispatcher follow the window and nothing else.  The
    [setAppFocusState] calls are, in order, [true] for every [focus]
    signal and [false] for every [blur] signal; the access-key highlight
    is only ever cleared, once for every [blur]; and every [url-action]
    is passed on once, in order, with the action it carries. *)
Theorem dispatcher_calls_follow_window m signals :
  let calls := dispatcher_calls (snd (run host m signals)) in
  omap focus_state calls = omap window_focus signals
  ∧ omap highlight_state calls = omap window_blur signals
  ∧ omap dispatched_action calls = omap requested_action signals.
Proof.
  cbv zeta. split_and!; apply run_projection; intros m' signal;
    rewrite handle_dispatcher_calls; destruct signal; try done;
    unfold on_focus; rewrite omap_app;
    destruct (selectedState state) as [| |selection]; try done;
    by destruct (negb _).
Qed.

(** *** When the extraction throws *)

Lemma uniform_outcome {A} (stmt : Extract A) extra :
  uniform stmt → snd (stmt extra) = snd (stmt ∅).
Proof. intros Hstmt. by rewrite (Hstmt extra). Qed.

Lemma block_completes stmts extra :
  Forall uniform stmts →
  snd (block stmts extra) = Normal ()
  ↔ Forall (λ stmt : Extract unit, snd (stmt ∅) = Normal ()) stmts.
Proof.
  intros Hstmts. revert extra.
  induction Hstmts as [|stmt rest Hstmt _ IH]; intros extra.
  { split; [constructor | done]. }
  rewrite block_cons, Forall_cons, <-(uniform_outcome stmt extra Hstmt).
  destruct (stmt extra) as [extra' [[]|e]]; cbn [snd].
  - rewrite IH. split; [by split | by intros [_ ?]].
  - split; [done | by intros [? _]].
Qed.

Lemma completes_conforms m s extra :
  snd (captureState host m s extra) = Normal () → conforms s = true.
Proof.
  unfold captureState.
  rewrite (block_completes _ _ (statements_uniform m s)).
  unfold statements. rewrite !Forall_cons.
  intros (Hbanner & Hpopup & Hselected & Hfoldout & _ & _ & Herrors & _
          & Hrepos & _ & Haccounts & _).
  unfold conforms. rewrite !andb_true_iff. split_and!.
  - by destruct (currentBanner s); cbn in Hbanner.
  - by destruct (currentPopup s); cbn in Hpopup.
  - destruct (selectedState s) as [| |selection];
      [by cbn in Hselected | done |].
    rewrite when_run in Hselected. cbn [strict_ne_null] in Hselected.
    rewrite get_then, assign_then, get_then, when_run in Hselected.
    destruct (SelectionType_strict_eq _ _); [|done].
    rewrite get_then in Hselected.
    by destruct (Selection_state selection); cbn in Hselected.
  - by destruct (currentFoldout s); cbn in Hfoldout.
  - by destruct (errors s); cbn in Herrors.
  - by destruct (repositories s); cbn in Hrepos.
  - by destruct (accounts s); cbn in Haccounts.
Qed.

(** X5. The statements in the [try] block run to the end exactly on the
    snapshots of the declared shape: [currentBanner], [currentPopup],
    [selectedState] and [currentFoldout] are not [undefined], the three
    arrays exist, and a selection of type [Repository] has its [state].
    On every other snapshot some statement throws, whatever the rejection
    variables, the platform and the content of [extra]. *)
Theorem extraction_throws_iff_malformed m s extra :
  snd (captureState host m s extra) = Normal () ↔ conforms s = true.
Proof.
  split; [apply completes_conforms | apply conforms_completes].
Qed.

Lemma block_throw_keeps stmts i w k extra :
  stmts !! i = Some w →
  Forall (silent_on k) (take i stmts) →
  (∀ before, snd (w before) ≠ Normal () → fst (w before) !! k = before !! k) →
  (∀ before, snd (block (drop (S i) stmts) before) = Normal ()) →
  snd (block stmts extra) ≠ Normal () →
  fst (block stmts extra) !! k = extra !! k.
Proof.
  intros Hi Hpre Hw Hpost.
  rewrite <-(take_drop_middle stmts i w Hi), block_app.
  pose proof (silent_block k _ Hpre extra) as Hbefore.
  destruct (block (take i stmts) extra) as [before [[]|e]]; [|done].
  rewrite block_cons. cbn [fst] in Hbefore.
  specialize (Hw before). specialize (Hpost (fst (w before))).
  destruct (w before) as [after [[]|e]]; cbn [fst snd] in *.
  - by intros [].
  - intros _. rewrite Hw; done.
Qed.

(** X9. In a production build with a published snapshot, and a caller
    that does not supply an [accounts] entry itself, the report has an
    [accounts] entry exactly when the snapshot is of the declared shape,
    that is, exactly when no statement of the extraction threw: the last
    key the extraction can fail on tells whether the context is whole. *)
Theorem accounts_marks_complete_capture m s error context nonFatal :
  production host = true →
  currentState m = Ref s →
  default ∅ context !! "accounts" = None →
  ∃ extra,
    reports (sendErrorWithContext host m error context nonFatal)
      = [(withSourceMappedStack error, extra, nonFatal)]
    ∧ (is_Some (extra !! "accounts") ↔ conforms s = true).
Proof.
  intros Hprod Hcur Hctx. eexists. split; [by apply sent_context|].
  destruct (snd (captureState host m s
                   (baseline host (default ∅ context)))) as [[]|e] eqn:Hrun.
  - pose proof (completes_conforms _ _ _ Hrun) as Hshape.
    unfold captureState in *.
    written "accounts" by 10 in Hrun as (e10 & _ & Hok10 & ->).
    apply count_completes in Hok10 as (signed_in & _ & ->).
    rewrite lookup_insert_eq. naive_solver.
  - assert (conforms s = false) as ->.
    { destruct (conforms s) eqn:Hshape; [|done].
      by rewrite (conforms_completes m s _ Hshape) in Hrun. }
    unfold captureState in *.
    erewrite (block_throw_keeps _ 10 _ "accounts");
      [ | reflexivity | all_silent | | | by rewrite Hrun ].
    + rewrite baseline_lookup_other, Hctx by done.
      split; [by intros [? ?] | done].
    + intros before. by destruct (accounts s).
    + intros before. cbn [drop statements]. rewrite block_cons, when_run.
      by destruct (__DARWIN__ host).
Qed.

(** *** More keys of the context *)

(** X6. In a production build, whatever the snapshot and whether or not
    the extraction throws: a caller's entry under a key the module does
    not write itself reaches the report unchanged, no such key is
    invented, and the report always has [osVersion] and [guid], from the
    caller's context if it supplies them and from [getOS()] and
    [getGUID()] otherwise. *)
Theorem unknown_keys_pass_through m error context nonFatal :
  let ctx := default ∅ context in
  production host = true →
  ∃ extra,
    reports (sendErrorWithContext host m error context nonFatal)
      = [(withSourceMappedStack error, extra, nonFatal)]
    ∧ (∀ k, k ∉ context_keys → extra !! k = ctx !! k)
    ∧ extra !! "osVersion" = Some (default (getOS host) (ctx !! "osVersion"))
    ∧ extra !! "guid" = Some (default (getGUID host) (ctx !! "guid")).
Proof.
  intros ctx Hprod. eexists. split.
  { rewrite sendErrorWithContext_production by done. reflexivity. }
  fold ctx. split_and!.
  - intros k Hk. unfold context_keys in Hk.
    rewrite !not_elem_of_cons in Hk. destruct_and!.
    assert (silent_on k (crashContext host m)) as ->.
    { apply silent_try. unfold extraction.
      destruct (currentState m) as [| |s]; try apply silent_ret.
      apply silent_block. all_silent. }
    by apply baseline_lookup_other.
  - rewrite (extraction_silent_on_baseline m "osVersion") by (by left).
    rewrite baseline_lookup. by destruct (ctx !! "osVersion").
  - rewrite (extraction_silent_on_baseline m "guid") by (by right).
    rewrite baseline_lookup. by destruct (ctx !! "guid").
Qed.

(** X7. In a production build, with a published snapshot on which the
    extraction raises nothing, the context holds the type of the banner,
    of the popup and of the foldout that is showing; where none is
    showing the key is as the caller's context has it.  The
    [automaticallySwitchTheme] entry is written on macOS only, as
    ["true"] or ["false"]. *)
Theorem ui_keys_in_context m s error context nonFatal :
  let ctx := default ∅ context in
  production host = true →
  currentState m = Ref s →
  snd (captureState host m s (baseline host ctx)) = Normal () →
  ∃ extra,
    reports (sendErrorWithContext host m error context nonFatal)
      = [(withSourceMappedStack error, extra, nonFatal)]
    ∧ extra !! "currentBanner" =
        match currentBanner s with
        | Ref banner => Some (Banner_type banner)
        | _ => ctx !! "currentBanner"
        end
    ∧ extra !! "currentPopup" =
        match currentPopup s with
        | Ref popup => Some (PopupType_toString (Popup_type popup))
        | _ => ctx !! "currentPopup"
        end
    ∧ extra !! "currentFoldout" =
        match currentFoldout s with
        | Ref foldout => Some (FoldoutType_toString (Foldout_type foldout))
        | _ => ctx !! "currentFoldout"
        end
    ∧ extra !! "automaticallySwitchTheme" =
        (if __DARWIN__ host
         then Some (boolean_toString (automaticallySwitchTheme s))
         else ctx !! "automaticallySwitchTheme").
Proof.
  intros ctx Hprod Hcur Hok. eexists. split; [by apply sent_context|].
  fold ctx. unfold captureState in *. split_and!.
  - written "currentBanner" by 0 in Hok as (e0 & Hbase & Hok0 & ->).
    rewrite baseline_lookup_other in Hbase by done.
    destruct (currentBanner s); [by cbn in Hok0 | done |].
    rewrite when_run, get_then, assign_run. cbn [strict_ne_null fst].
    by rewrite lookup_insert_eq.
  - written "currentPopup" by 1 in Hok as (e1 & Hbase & Hok1 & ->).
    rewrite baseline_lookup_other in Hbase by done.
    destruct (currentPopup s); [by cbn in Hok1 | done |].
    rewrite when_run, get_then, assign_run. cbn [strict_ne_null fst].
    by rewrite lookup_insert_eq.
  - written "currentFoldout" by 3 in Hok as (e3 & Hbase & Hok3 & ->).
    rewrite baseline_lookup_other in Hbase by done.
    destruct (currentFoldout s); [by cbn in Hok3 | done |].
    rewrite when_run, get_then, assign_run. cbn [strict_ne_null fst].
    by rewrite lookup_insert_eq.
  - written "automaticallySwitchTheme" by 11 in Hok
      as (e11 & Hbase & _ & ->).
    rewrite baseline_lookup_other in Hbase by done.
    rewrite when_run. destruct (__DARWIN__ host); [|done].
    rewrite assign_run. cbn [fst]. by rewrite lookup_insert_eq.
Qed.

(** X8. In a production build, with a published snapshot on which the
    extraction raises nothing: when something is selected the context
    holds the type of the selection, and the section shown for it when,
    and only when, the selection is of type [Repository]; when nothing is
    selected both keys are as the caller's context has them. *)
Theorem selection_keys_in_context m s error context nonFatal :
  let ctx := default ∅ context in
  production host = true →
  currentState m = Ref s →
  snd (captureState host m s (baseline host ctx)) = Normal () →
  ∃ extra,
    reports (sendErrorWithContext host m error context nonFatal)
      = [(withSourceMappedStack error, extra, nonFatal)]
    ∧ match selectedState s with
      | Ref selection =>
          extra !! "selectedState"
            = Some (SelectionType_toString (Selection_type selection))
          ∧ if SelectionType_strict_eq (Selection_type selection)
                 SelectionType_Repository
            then ∃ state,
                Selection_state selection = Ref state
                ∧ extra !! "selectedRepositorySection"
                  = Some (RepositorySectionTab_toString
                            (selectedSection state))
            else extra !! "selectedRepositorySection"
                 = ctx !! "selectedRepositorySection"
      | _ =>
          selectedState s = Null
          ∧ extra !! "selectedState" = ctx !! "selectedState"
          ∧ extra !! "selectedRepositorySection"
            = ctx !! "selectedRepositorySection"
      end.
Proof.
  intros ctx Hprod Hcur Hok. eexists. split; [by apply sent_context|].
  fold ctx. unfold captureState in *.
  written "selectedState" by 2 in Hok as (e2 & Hbase & Hok2 & ->).
  rewrite baseline_lookup_other in Hbase by done.
  written "selectedRepositorySection" by 2 in Hok
    as (e2' & Hbase' & Hok2' & ->).
  rewrite baseline_lookup_other in Hbase' by done.
  destruct (selectedState s) as [| |selection]; try done.
  rewrite !when_run in *. cbn [strict_ne_null] in *.
  rewrite !get_then, !assign_then, !get_then, !when_run in *.
  destruct (SelectionType_strict_eq _ _).
  - rewrite !get_then in *.
    destruct (Selection_state selection) as [| |state];
      [by cbn in Hok2 | by cbn in Hok2 |].
    rewrite !get_then, !assign_run. cbn [fst].
    split.
    + by rewrite lookup_insert_ne, lookup_insert_eq.
    + exists state. by rewrite lookup_insert_eq.
  - cbn [fst]. by rewrite lookup_insert_eq, lookup_insert_ne.
Qed.

End Properties.

(** ** The model at work: instances of the theorems and inputs on which
    the specification's wording fails *)

Module Examples.
Import Sample.
#[local] Existing Instance imports.

(** *** Instances *)

Lemma null_snapshot_sends_baseline_witness :
  production release = true
  ∧ truthy (currentState loaded) = false
  ∧ ∃ extra,
      (∀ before, snd (extraction release loaded before) = Normal ())
      ∧ reports (sendErrorWithContext release loaded boom None (Some true))
          = [(boom, extra, Some true)]
      ∧ extra = ∅ ∪ {["osVersion" := "Windows 10.0.19045";
                      "guid" := "guid-1"]}
      ∧ dom extra = {["osVersion"; "guid"]} ∪ dom (∅ : gmap string string).
Proof.
  split; [reflexivity|]. split; [reflexivity|].
  apply (null_snapshot_sends_baseline release loaded boom None (Some true));
    reflexivity.
Defined.

Lemma one_failure_boundary_witness :
  let m := showing broken_state in
  let base := baseline release ∅ in
  ∃ stmt e,
    production release = true
    ∧ currentState m = Ref broken_state
    ∧ statements release m broken_state !! 1 = Some stmt
    ∧ snd (block (take 1 (statements release m broken_state)) base)
        = Normal ()
    ∧ snd (stmt (fst (block (take 1 (statements release m broken_state))
                        base))) = Throw e
    ∧ snd (crashContext release m base) = Normal ()
    ∧ reports (sendErrorWithContext release m boom None None) =
        [(boom,
          fst (stmt (fst (block (take 1 (statements release m broken_state))
                            base))),
          None)].
Proof.
  intros m base. eexists _, _.
  split; [reflexivity|]. split; [reflexivity|]. split; [reflexivity|].
  split; [reflexivity|]. split; [reflexivity|].
  eapply (one_failure_boundary release m broken_state boom None None 1);
    reflexivity.
Defined.

Lemma rejection_in_context_witness :
  let m := rejected truncated_state in
  production release = true
  ∧ currentState m = Ref truncated_state
  ∧ snd (block (take 7 (statements release m truncated_state))
           (baseline release ∅)) = Normal ()
  ∧ snd (captureState release m truncated_state (baseline release ∅))
      ≠ Normal ()
  ∧ ∃ extra,
      reports (sendErrorWithContext release m boom None None)
        = [(boom, extra, None)]
      ∧ extra !! "lastUnhandledRejection" = Some "Error: offline"
      ∧ extra !! "lastUnhandledRejectionTime" = Some "1700000000000".
Proof.
  intros m.
  split; [reflexivity|]. split; [reflexivity|]. split; [reflexivity|].
  split; [discriminate|].
  apply (rejection_in_context release m truncated_state boom None None);
    reflexivity.
Defined.

Lemma snapshot_keys_in_context_witness :
  let m := showing busy_state in
  production release = true
  ∧ currentState m = Ref busy_state
  ∧ snd (captureState release m busy_state (baseline release ∅)) = Normal ()
  ∧ ∃ extra active known signed_in,
      reports (sendErrorWithContext release m boom None None)
        = [(boom, extra, None)]
      ∧ errors busy_state = Ref active
      ∧ repositories busy_state = Ref known
      ∧ accounts busy_state = Ref signed_in
      ∧ extra !! "repositoryCount" = Some (pretty (length known))
      ∧ extra !! "windowState" = Some "maximized"
      ∧ extra !! "accounts" = Some (pretty (length signed_in))
      ∧ extra !! "activeAppErrors" =
          (if bool_decide (0 < length active)
           then Some (pretty (length active))
           else None)
      ∧ extra !! "windowZoomFactor" = Some "2"
      ∧ extra !! "inWelcomeFlow" = Some "true".
Proof.
  intros m.
  split; [reflexivity|]. split; [reflexivity|]. split; [reflexivity|].
  apply (snapshot_keys_in_context release m busy_state boom None None);
    reflexivity.
Defined.

Lemma collisions_resolve_by_construction_order_witness :
  let m := showing busy_state in
  let ctx : gmap string string :=
    {["osVersion" := "spoofed"; "accounts" := "many"]} in
  let derived := fst (crashContext release m ∅) in
  production release = true
  ∧ ∃ extra,
      reports (sendErrorWithContext release m boom (Some ctx) (Some true))
        = [(boom, extra, Some true)]
      ∧ extra = derived
                  ∪ (ctx ∪ {["osVersion" := "Windows 10.0.19045";
                             "guid" := "guid-1"]})
      ∧ (∀ k v, derived !! k = Some v → extra !! k = Some v)
      ∧ (∀ k v, derived !! k = None → ctx !! k = Some v →
                extra !! k = Some v)
      ∧ (∀ v, ctx !! "osVersion" = Some v → extra !! "osVersion" = Some v)
      ∧ (∀ v, ctx !! "guid" = Some v → extra !! "guid" = Some v).
Proof.
  intros m ctx derived. split; [reflexivity|].
  apply (collisions_resolve_by_construction_order release m boom ctx
           (Some true)).
  reflexivity.
Defined.

(** The layers of the previous instance, read off the context sent:
    the caller's [osVersion] wins over the baseline, the extracted
    [accounts] wins over the caller's. *)
Example collisions_resolved :
  let ctx : gmap string string :=
    {["osVersion" := "spoofed"; "accounts" := "many"]} in
  (λ r, (r.1.2 !! "osVersion", r.1.2 !! "guid", r.1.2 !! "accounts")) <$>
    reports (sendErrorWithContext release (showing busy_state) boom
               (Some ctx) (Some true))
  = [(Some "spoofed", Some "guid-1", Some "1")].
Proof. by vm_compute. Qed.

(** A development build logs twice and reports nothing; the fatal signal
    is raised all the same. *)
Example development_logs_only :
  snd (handle development (showing busy_state) (uncaughtException boom)) =
    [ console_error "Uncaught exception" (Some boom);
      console_error dev_message None;
      reportUncaughtException boom ].
Proof. reflexivity. Qed.

(** Two uncaught exceptions in a row: the second one reaches nothing. *)
Example second_exception_is_silent :
  (λ effects, (length (reports effects), fatal_signals effects))
    (snd (run release loaded [uncaughtException boom; uncaughtException boom]))
  = (1, [boom]).
Proof. by vm_compute. Qed.

(** *** Inputs on which the specification's wording fails *)

(** C2: [currentPopup] is [undefined], so the second statement throws.
    The report goes out without [repositoryCount], although reading the
    repositories would not have failed; with a boundary per statement
    the key would be there. *)
Lemma failure_skips_later_fields :
  let m := showing broken_state in
  ∃ sent,
    reports (sendErrorWithContext release m boom None None)
      = [(boom, sent, None)]
    ∧ repositories broken_state = Ref ["desktop"; "dugite"]
    ∧ sent !! "repositoryCount" = None
    ∧ fst (spec_captureState_per_field release m broken_state
             (baseline release ∅)) !! "repositoryCount" = Some "2".
Proof. intros m. eexists. split; [reflexivity|]. by vm_compute. Qed.

(** C5: a rejection is recorded before the first snapshot is published,
    then an exception is not caught.  The report carries neither the
    text nor the time of the rejection.  The same happens when the
    snapshot makes an earlier statement throw. *)
Lemma early_rejection_not_in_report :
  let early := [unhandledrejection offline noon; uncaughtException boom] in
  let broken := didUpdate broken_state :: early in
  lastUnhandledRejection (fst (run release loaded early))
    = Some "Error: offline"
  ∧ (λ r, (r.1.2 !! "lastUnhandledRejection",
           r.1.2 !! "lastUnhandledRejectionTime")) <$>
      reports (snd (run release loaded early)) = [(None, None)]
  ∧ (λ r, (r.1.2 !! "lastUnhandledRejection",
           r.1.2 !! "lastUnhandledRejectionTime")) <$>
      reports (snd (run release loaded broken)) = [(None, None)].
Proof. by vm_compute. Qed.

(** C6: the freshly started application has no error showing, and the
    context has no [activeAppErrors] entry; and a snapshot that makes a
    statement throw leaves the counts out altogether. *)
Lemma no_error_count_without_errors :
  conforms empty_state = true
  ∧ errors empty_state = Ref []
  ∧ (λ r, r.1.2 !! "activeAppErrors") <$>
      reports (sendErrorWithContext release (showing empty_state) boom
                 None None) = [None]
  ∧ (λ r, (r.1.2 !! "repositoryCount", r.1.2 !! "accounts")) <$>
      reports (sendErrorWithContext release (showing broken_state) boom
                 None None) = [(None, None)].
Proof. by vm_compute. Qed.

(** C7: with a repository selected, one [focus] signal reaches two
    dispatcher calls. *)
Lemma focus_also_refreshes :
  dispatcher_calls
    (snd (handle release (showing busy_state) (focus busy_state)))
  = [refreshRepository "desktop"; setAppFocusState true].
Proof. reflexivity. Qed.

(** C8: a promise rejected with a symbol.  The reason is neither [null]
    nor [undefined], the template literal throws, and nothing is
    recorded. *)
Lemma symbol_rejection_not_recorded :
  let m := fst (handle release loaded
                  (unhandledrejection (VSymbol "timeout") noon)) in
  has_reason (VSymbol "timeout") = true
  ∧ lastUnhandledRejection m = None
  ∧ lastUnhandledRejectionTime m = None.
Proof. by vm_compute. Qed.


(** *** Instances of the further properties *)

Lemma fatal_report_uses_latest_state_witness :
  production release = true
  ∧ forallb (λ signal, negb (is_uncaughtException signal)) session = true
  ∧ snd (handle release (fst (run release loaded session))
           (uncaughtException boom)) =
      [ console_error "Uncaught exception" (Some boom);
        sendErrorReport boom
          (fst (crashContext release (rejected busy_state)
                  (baseline release ∅)))
          None;
        reportUncaughtException boom ].
Proof.
  split; [reflexivity|]. split; [reflexivity|].
  apply (fatal_report_uses_latest_state release session boom); reflexivity.
Defined.

Lemma accounts_marks_complete_capture_witness :
  let m := showing broken_state in
  production release = true
  ∧ currentState m = Ref broken_state
  ∧ (∅ : gmap string string) !! "accounts" = None
  ∧ ∃ extra,
      reports (sendErrorWithContext release m boom None None)
        = [(boom, extra, None)]
      ∧ (is_Some (extra !! "accounts") ↔ conforms broken_state = true).
Proof.
  intros m. split; [reflexivity|]. split; [reflexivity|].
  split; [reflexivity|].
  apply (accounts_marks_complete_capture release m broken_state boom None
           None); reflexivity.
Defined.

Lemma unknown_keys_pass_through_witness :
  let m := showing busy_state in
  let ctx : gmap string string :=
    {["guid" := "caller"; "ticket" := "4711"]} in
  production release = true
  ∧ ∃ extra,
      reports (sendErrorWithContext release m boom (Some ctx) (Some true))
        = [(boom, extra, Some true)]
      ∧ (∀ k, k ∉ context_keys → extra !! k = ctx !! k)
      ∧ extra !! "osVersion"
        = Some (default "Windows 10.0.19045" (ctx !! "osVersion"))
      ∧ extra !! "guid" = Some (default "guid-1" (ctx !! "guid")).
Proof.
  intros m ctx. split; [reflexivity|].
  apply (unknown_keys_pass_through release m boom (Some ctx) (Some true)).
  reflexivity.
Defined.

Lemma ui_keys_in_context_witness :
  let m := showing busy_state in
  production release = true
  ∧ currentState m = Ref busy_state
  ∧ snd (captureState release m busy_state (baseline release ∅)) = Normal ()
  ∧ ∃ extra,
      reports (sendErrorWithContext release m boom None None)
        = [(boom, extra, None)]
      ∧ extra !! "currentBanner" = None
      ∧ extra !! "currentPopup" = Some "3"
      ∧ extra !! "currentFoldout" = None
      ∧ extra !! "automaticallySwitchTheme" = None.
Proof.
  intros m.
  split; [reflexivity|]. split; [reflexivity|]. split; [reflexivity|].
  apply (ui_keys_in_context release m busy_state boom None None);
    reflexivity.
Defined.

Lemma selection_keys_in_context_witness :
  let m := showing busy_state in
  production release = true
  ∧ currentState m = Ref busy_state
  ∧ snd (captureState release m busy_state (baseline release ∅)) = Normal ()
  ∧ ∃ extra,
      reports (sendErrorWithContext release m boom None None)
        = [(boom, extra, None)]
      ∧ extra !! "selectedState" = Some "0"
      ∧ ∃ state,
          Ref {| selectedSection := 1%N |} = Ref state
          ∧ extra !! "selectedRepositorySection"
            = Some (pretty (selectedSection state)).
Proof.
  intros m.
  split; [reflexivity|]. split; [reflexivity|]. split; [reflexivity|].
  apply (selection_keys_in_context release m busy_state boom None None);
    reflexivity.
Defined.

(** The session, then two exceptions that are not caught: two reports,
    the first with the non-fatal mark, and one fatal signal. *)
Example session_reports :
  let effects :=
    snd (run release loaded
           (session ++ [uncaughtException boom; uncaughtException boom])) in
  (snd <$> reports effects, fatal_signals effects,
   omap focus_state (dispatcher_calls effects))
  = ([Some true; None], [boom], [false]).
Proof. by vm_compute. Qed.
End Examples.
